(** * Content moderation service: the file admission pipeline

    A shallow embedding of [docker/content-moderator/app.py] (class
    [ContentModerator]) and the properties of its scanning pipeline.

    Python values are modelled as follows.
    - [str] is [string]; a character is a code point below 256.
    - [int] is [Z]; [bool] is [bool]; [None]-able values are [option].
    - A call that may raise returns an [outcome]; a method body is a
      computation that writes log records and ends in a value or in a
      raised exception.  [try]/[except Exception] is [try_except].
    - The [results] dict of [comprehensive_scan] has a fixed set of keys and
      is a record, threaded through the method as mutable state.
    - libmagic, the file system, the ClamAV daemon, Pillow, hashlib and the
      clock are the fields of an environment [Env]. *)

From Stdlib Require Import ZArith List String Ascii Bool Lia.
From Stdlib Require Import Strings.Byte.
Import ListNotations.

Local Open Scope string_scope.
Local Open Scope Z_scope.

(* ===================================================================== *)
(** ** Python string methods *)
(* ===================================================================== *)

Module PyStr.

(** [str.lower] on code points below 256: [A-Z] and the Latin-1 capitals
    (U+00C0..U+00DE except U+00D7) move up by 32. *)
Definition lower_char (c : ascii) : ascii :=
  let n := N_of_ascii c in
  if ((65 <=? n) && (n <=? 90))%N
     || ((192 <=? n) && (n <=? 222) && negb (n =? 215))%N
  then ascii_of_N (n + 32) else c.

Fixpoint lower (s : string) : string :=
  match s with
  | EmptyString => EmptyString
  | String c t => String (lower_char c) (lower t)
  end.

(** [str.isspace] on one code point below 256. *)
Definition isspace (c : ascii) : bool :=
  let n := N_of_ascii c in
  (((9 <=? n) && (n <=? 13)) || ((28 <=? n) && (n <=? 32))
   || (n =? 133) || (n =? 160))%N.

(** [s.lstrip(chars)] with the set of characters given as a predicate. *)
Fixpoint lstrip_by (p : ascii -> bool) (s : string) : string :=
  match s with
  | EmptyString => EmptyString
  | String c t => if p c then lstrip_by p t else s
  end.

Fixpoint rstrip_by (p : ascii -> bool) (s : string) : string :=
  match s with
  | EmptyString => EmptyString
  | String c t =>
      match rstrip_by p t with
      | EmptyString => if p c then EmptyString else String c EmptyString
      | t' => String c t'
      end
  end.

(** [s.strip()] *)
Definition strip (s : string) : string := rstrip_by isspace (lstrip_by isspace s).

(** [s.lstrip('.')] *)
Definition lstrip_dot (s : string) : string := lstrip_by (Ascii.eqb ".") s.

(** [s.startswith(prefix)] *)
Fixpoint startswith (s pre : string) {struct pre} : bool :=
  match pre with
  | EmptyString => true
  | String a pre' =>
      match s with
      | EmptyString => false
      | String b s' => Ascii.eqb a b && startswith s' pre'
      end
  end.

(** [needle in s] for strings: [needle] starts at some position of [s]. *)
Fixpoint contains (needle s : string) : bool :=
  startswith s needle
  || match s with
     | EmptyString => false
     | String _ t => contains needle t
     end.

(** [s.split(sep)] for a one-character separator; the result is never
    empty. *)
Fixpoint split (sep : ascii) (s : string) : list string :=
  match s with
  | EmptyString => [EmptyString]
  | String c t =>
      if Ascii.eqb c sep then EmptyString :: split sep t
      else match split sep t with
           | h :: r => String c h :: r
           | [] => [String c EmptyString]
           end
  end.

(** [c in s] for one character. *)
Fixpoint has_char (c : ascii) (s : string) : bool :=
  match s with
  | EmptyString => false
  | String a t => Ascii.eqb a c || has_char c t
  end.

(** No character of [s] is white space. *)
Fixpoint no_space (s : string) : bool :=
  match s with
  | EmptyString => true
  | String c t => negb (isspace c) && no_space t
  end.

(** [s.rfind(c)]: the index of the last occurrence of [c], [None] for -1. *)
Fixpoint rfind_from (c : ascii) (s : string) (i : nat) : option nat :=
  match s with
  | EmptyString => None
  | String a t =>
      match rfind_from c t (S i) with
      | Some j => Some j
      | None => if Ascii.eqb a c then Some i else None
      end
  end.

Definition rfind (c : ascii) (s : string) : option nat := rfind_from c s 0.

(** [s[i:]] and [s[:i]] for [0 <= i]. *)
Fixpoint slice_from (i : nat) (s : string) : string :=
  match i, s with
  | O, _ => s
  | S _, EmptyString => EmptyString
  | S i', String _ t => slice_from i' t
  end.

Fixpoint slice_to (i : nat) (s : string) : string :=
  match i, s with
  | O, _ => EmptyString
  | S _, EmptyString => EmptyString
  | S i', String c t => String c (slice_to i' t)
  end.

(** [posixpath.splitext]: split at the last dot of the last path component,
    unless that component has nothing but dots before it. *)
Definition splitext (p : string) : string * string :=
  let sepIndex := rfind "/" p in
  let dotIndex := rfind "." p in
  let filenameIndex := match sepIndex with None => O | Some i => S i end in
  match dotIndex with
  | None => (p, EmptyString)
  | Some d =>
      if match sepIndex with None => true | Some i => Nat.ltb i d end then
        (* skip all leading dots *)
        if existsb (fun c => negb (Ascii.eqb c "."))
                   (list_ascii_of_string (slice_to (d - filenameIndex) (slice_from filenameIndex p)))
        then (slice_to d p, slice_from d p)
        else (p, EmptyString)
      else (p, EmptyString)
  end.

End PyStr.

(* ===================================================================== *)
(** ** Exceptions, logging and control flow *)
(* ===================================================================== *)

Module Eff.

(** An instance of a subclass of [Exception]; [str e] is its message. *)
Inductive exc : Type := Exception (msg : string).

Definition str (e : exc) : string := match e with Exception msg => msg end.

(** The result of a call into a library or the operating system. *)
Inductive outcome (A : Type) : Type :=
| Ok (a : A)
| Raise (e : exc).
Arguments Ok {A} a.
Arguments Raise {A} e.

Inductive level : Type := ERROR | INFO.

Definition log_record : Type := level * string.

Class Monad (m : Type -> Type) : Type := {
  ret : forall {A : Type}, A -> m A;
  bind : forall {A B : Type}, m A -> (A -> m B) -> m B
}.

(** A method body outside the orchestrator: the records it hands to
    [logger], then its value or the exception it raises. *)
Definition M (A : Type) : Type := list log_record * outcome A.

Definition M_bind {A B : Type} (m : M A) (k : A -> M B) : M B :=
  match m with
  | (l, Ok a) => let '(l', r) := k a in ((l ++ l')%list, r)
  | (l, Raise e) => (l, Raise e)
  end.

#[export] Instance Monad_M : Monad M := {
  ret := fun A a => ([], Ok a);
  bind := @M_bind
}.

Definition call {A : Type} (o : outcome A) : M A := ([], o).

Definition logger_error (msg : string) : M unit := ([(ERROR, msg)], Ok tt).

Definition logger_info (msg : string) : M unit := ([(INFO, msg)], Ok tt).

(** [try: body  except Exception as e: handler e] *)
Definition try_except {A : Type} (body : M A) (handler : exc -> M A) : M A :=
  match body with
  | (l, Ok a) => (l, Ok a)
  | (l, Raise e) => let '(l', r) := handler e in ((l ++ l')%list, r)
  end.

(** What a computation wrote to the log, and how it ended. *)
Definition written {A : Type} (m : M A) : list log_record := fst m.
Definition result {A : Type} (m : M A) : outcome A := snd m.

(** How a block of statements of a method with local state ends: it falls
    through with a value, executes [return results], or raises. *)
Inductive signal (A : Type) : Type :=
| Normal (a : A)
| Returned
| Raised (e : exc).
Arguments Normal {A} a.
Arguments Returned {A}.
Arguments Raised {A} e.

(** A block of statements over the mutable state [S]. *)
Definition SM (S A : Type) : Type := S -> list log_record * S * signal A.

Definition SM_bind {S A B : Type} (m : SM S A) (k : A -> SM S B) : SM S B :=
  fun s =>
    match m s with
    | (l, s', Normal a) => let '(l', s'', r) := k a s' in ((l ++ l')%list, s'', r)
    | (l, s', Returned) => (l, s', Returned)
    | (l, s', Raised e) => (l, s', Raised e)
    end.

#[export] Instance Monad_SM (S : Type) : Monad (SM S) := {
  ret := fun A a s => ([], s, Normal a);
  bind := @SM_bind S
}.

(** A method call from inside the block. *)
Definition lift {S A : Type} (m : M A) : SM S A :=
  fun s =>
    match m with
    | (l, Ok a) => (l, s, Normal a)
    | (l, Raise e) => (l, s, Raised e)
    end.

Definition get {S : Type} : SM S S := fun s => ([], s, Normal s).

(** An assignment to a key of the state. *)
Definition assign {S : Type} (f : S -> S) : SM S unit := fun s => ([], f s, Normal tt).

(** [return results] *)
Definition return_results {S A : Type} : SM S A := fun s => ([], s, Returned).

Definition SM_error {S : Type} (msg : string) : SM S unit :=
  fun s => ([(ERROR, msg)], s, Normal tt).

(** [try: body  except Exception as e: handler e] around a block: a
    [return] inside the block leaves the method, only a raise reaches the
    handler. *)
Definition SM_try_except {S A : Type} (body : SM S A) (handler : exc -> SM S A) : SM S A :=
  fun s =>
    match body s with
    | (l, s', Raised e) => let '(l', s'', r) := handler e s' in ((l ++ l')%list, s'', r)
    | other => other
    end.

End Eff.

Import Eff.

Declare Scope py_scope.
Delimit Scope py_scope with py.
Notation "x <- c ;; k" := (bind c (fun x => k))
  (at level 61, c at next level, right associativity) : py_scope.
Notation "' pat <- c ;; k" := (bind c (fun x => match x with pat => k end))
  (at level 61, pat pattern, c at next level, right associativity) : py_scope.
Notation "c ;; k" := (bind c (fun _ => k))
  (at level 61, right associativity) : py_scope.
Local Open Scope py_scope.

(* ===================================================================== *)
(** ** The outside world *)
(* ===================================================================== *)

(** What the service reads of an opened [PIL.Image]: [img.size],
    [img.mode] and the keys of [img.info]. *)
Record image : Type := {
  img_size : Z * Z;
  img_mode : string;
  img_info : list string
}.

(** The libraries and the operating system as the service calls them. *)
Record Env : Type := {
  (** [magic.Magic(mime=True).from_file(path)] *)
  magic_from_file : string -> outcome string;
  (** [os.path.getsize(path)] *)
  os_path_getsize : string -> outcome Z;
  (** [os.getenv('CLAMAV_HOST', 'clamav')] and
      [int(os.getenv('CLAMAV_PORT', '3310'))], read at import *)
  CLAMAV_HOST : string;
  CLAMAV_PORT : Z;
  (** one exchange with the daemon: connect to host and port with a
      timeout of 30 seconds, send the data, [recv(1024).decode()], close;
      any step may raise *)
  clamd_exchange : string -> Z -> string -> outcome string;
  (** [Image.open(path)] *)
  Image_open : string -> outcome image;
  (** [open(path, "rb")]: a file object is the results of its successive
      [f.read(4096)] calls; past the end of the list [read] returns [b""] *)
  open_rb : string -> outcome (list (outcome (list byte)));
  (** [hashlib.sha256]: the hex digest of all the bytes fed to [update] *)
  sha256_hexdigest : list byte -> string;
  (** [datetime.utcnow().isoformat()] *)
  utcnow_isoformat : string
}.

(* ===================================================================== *)
(** ** Configuration *)
(* ===================================================================== *)

Definition ALLOWED_EXTENSIONS : list (string * list string) :=
  [ ("image",    ["jpg"; "jpeg"; "png"; "gif"; "bmp"; "webp"]);
    ("video",    ["mp4"; "avi"; "mov"; "wmv"; "flv"; "webm"]);
    ("document", ["pdf"; "doc"; "docx"; "txt"; "rtf"; "odt"]) ].

Definition MAX_FILE_SIZE : Z := 10 * 1024 * 1024.

(** [x in xs] for a set, tuple or dict keys of strings. *)
Definition str_in (x : string) (xs : list string) : bool :=
  existsb (String.eqb x) xs.

(** [d.get(k, default)] *)
Fixpoint dict_get {V : Type} (d : list (string * V)) (k : string) (default : V) : V :=
  match d with
  | [] => default
  | (k', v) :: rest => if String.eqb k k' then v else dict_get rest k default
  end.

(** [xs[i]] *)
Definition list_index {A : Type} (xs : list A) (i : nat) : outcome A :=
  match nth_error xs i with
  | Some x => Ok x
  | None => Raise (Exception "list index out of range")
  end.

Definition LF : string := String (ascii_of_nat 10) EmptyString.

(* ===================================================================== *)
(** ** The scan report *)
(* ===================================================================== *)

(** [{'clean': ..., 'details': ...}] *)
Record malware_entry : Type := {
  clean : bool;
  malware_details : string
}.

(** [{'safe': ..., 'details': ...}] *)
Record content_entry : Type := {
  safe : bool;
  content_details : string
}.

(** The [results] dict. *)
Record report : Type := {
  file_path : string;
  timestamp : string;
  file_hash : option string;
  file_size : Z;
  file_type_valid : bool;
  file_category : option string;
  mime_type : option string;
  size_valid : bool;
  malware_scan : malware_entry;
  content_analysis : content_entry;
  overall_safe : bool;
  errors : list string
}.

Definition set_file_hash (v : option string) (r : report) : report :=
  {| file_path := file_path r; timestamp := timestamp r; file_hash := v;
     file_size := file_size r; file_type_valid := file_type_valid r;
     file_category := file_category r; mime_type := mime_type r;
     size_valid := size_valid r; malware_scan := malware_scan r;
     content_analysis := content_analysis r; overall_safe := overall_safe r;
     errors := errors r |}.

Definition set_file_size (v : Z) (r : report) : report :=
  {| file_path := file_path r; timestamp := timestamp r; file_hash := file_hash r;
     file_size := v; file_type_valid := file_type_valid r;
     file_category := file_category r; mime_type := mime_type r;
     size_valid := size_valid r; malware_scan := malware_scan r;
     content_analysis := content_analysis r; overall_safe := overall_safe r;
     errors := errors r |}.

Definition set_file_type_valid (v : bool) (r : report) : report :=
  {| file_path := file_path r; timestamp := timestamp r; file_hash := file_hash r;
     file_size := file_size r; file_type_valid := v;
     file_category := file_category r; mime_type := mime_type r;
     size_valid := size_valid r; malware_scan := malware_scan r;
     content_analysis := content_analysis r; overall_safe := overall_safe r;
     errors := errors r |}.

Definition set_file_category (v : option string) (r : report) : report :=
  {| file_path := file_path r; timestamp := timestamp r; file_hash := file_hash r;
     file_size := file_size r; file_type_valid := file_type_valid r;
     file_category := v; mime_type := mime_type r;
     size_valid := size_valid r; malware_scan := malware_scan r;
     content_analysis := content_analysis r; overall_safe := overall_safe r;
     errors := errors r |}.

Definition set_mime_type (v : option string) (r : report) : report :=
  {| file_path := file_path r; timestamp := timestamp r; file_hash := file_hash r;
     file_size := file_size r; file_type_valid := file_type_valid r;
     file_category := file_category r; mime_type := v;
     size_valid := size_valid r; malware_scan := malware_scan r;
     content_analysis := content_analysis r; overall_safe := overall_safe r;
     errors := errors r |}.

Definition set_size_valid (v : bool) (r : report) : report :=
  {| file_path := file_path r; timestamp := timestamp r; file_hash := file_hash r;
     file_size := file_size r; file_type_valid := file_type_valid r;
     file_category := file_category r; mime_type := mime_type r;
     size_valid := v; malware_scan := malware_scan r;
     content_analysis := content_analysis r; overall_safe := overall_safe r;
     errors := errors r |}.

Definition set_malware_scan (v : malware_entry) (r : report) : report :=
  {| file_path := file_path r; timestamp := timestamp r; file_hash := file_hash r;
     file_size := file_size r; file_type_valid := file_type_valid r;
     file_category := file_category r; mime_type := mime_type r;
     size_valid := size_valid r; malware_scan := v;
     content_analysis := content_analysis r; overall_safe := overall_safe r;
     errors := errors r |}.

Definition set_content_analysis (v : content_entry) (r : report) : report :=
  {| file_path := file_path r; timestamp := timestamp r; file_hash := file_hash r;
     file_size := file_size r; file_type_valid := file_type_valid r;
     file_category := file_category r; mime_type := mime_type r;
     size_valid := size_valid r; malware_scan := malware_scan r;
     content_analysis := v; overall_safe := overall_safe r;
     errors := errors r |}.

Definition set_overall_safe (v : bool) (r : report) : report :=
  {| file_path := file_path r; timestamp := timestamp r; file_hash := file_hash r;
     file_size := file_size r; file_type_valid := file_type_valid r;
     file_category := file_category r; mime_type := mime_type r;
     size_valid := size_valid r; malware_scan := malware_scan r;
     content_analysis := content_analysis r; overall_safe := v;
     errors := errors r |}.

(** [results['errors'].append(msg)] *)
Definition errors_append (msg : string) (r : report) : report :=
  {| file_path := file_path r; timestamp := timestamp r; file_hash := file_hash r;
     file_size := file_size r; file_type_valid := file_type_valid r;
     file_category := file_category r; mime_type := mime_type r;
     size_valid := size_valid r; malware_scan := malware_scan r;
     content_analysis := content_analysis r; overall_safe := overall_safe r;
     errors := (errors r ++ [msg])%list |}.

(* ===================================================================== *)
(** ** class ContentModerator *)
(* ===================================================================== *)

Module ContentModerator.

Section Methods.

Variable env : Env.

(** [_mime_matches_extension(mime_type, category)] *)
Definition mime_categories : list (string * list string) :=
  [ ("image",    ["image/"]);
    ("video",    ["video/"]);
    ("document", ["application/pdf"; "application/msword"; "text/"; "application/vnd."]) ].

Definition _mime_matches_extension (mime_type category : string) : bool :=
  existsb (fun prefix => PyStr.startswith mime_type prefix)
          (dict_get mime_categories category []).

(** The loop of [validate_file_type] over [ALLOWED_EXTENSIONS.items()]: the
    category it returns from, if any. *)
Fixpoint allowed_category (ext mime_type : string)
    (items : list (string * list string)) : option string :=
  match items with
  | [] => None
  | (category, extensions) :: rest =>
      if str_in ext extensions then
        if _mime_matches_extension mime_type category then Some category
        else allowed_category ext mime_type rest
      else allowed_category ext mime_type rest
  end.

(** The extension [validate_file_type] looks up. *)
Definition extension (file_path : string) : string :=
  let '(_, ext) := PyStr.splitext file_path in
  PyStr.lstrip_dot (PyStr.lower ext).

Definition validate_file_type (file_path : string)
    : M (bool * option string * option string) :=
  try_except
    (mime_type <- call (magic_from_file env file_path) ;;
     let ext := extension file_path in
     match allowed_category ext mime_type ALLOWED_EXTENSIONS with
     | Some category => ret (true, Some category, Some mime_type)
     | None => ret (false, None, Some mime_type)
     end)
    (fun e =>
       logger_error ("Error validating file type: " ++ str e) ;;
       ret (false, None, None)).

Definition validate_file_size (file_path : string) (max_size : Z) : M (bool * Z) :=
  try_except
    (size <- call (os_path_getsize env file_path) ;;
     ret (size <=? max_size, size))
    (fun e =>
       logger_error ("Error validating file size: " ++ str e) ;;
       ret (false, 0)).

(** The parse of the daemon's answer in [scan_for_malware]; the indexing
    [split(":")[1]] may raise. *)
Definition parse_response (response : string) : M (bool * string) :=
  if PyStr.contains "OK" response then
    ret (true, "Clean")
  else if PyStr.contains "FOUND" response then
    field <- call (list_index (PyStr.split ":" response) 1) ;;
    let virus_name := PyStr.strip field in
    ret (false, virus_name)
  else
    ret (false, "Scan failed").

Definition scan_for_malware (file_path : string) : M (bool * string) :=
  try_except
    (received <- call (clamd_exchange env (CLAMAV_HOST env) (CLAMAV_PORT env)
                                      ("SCAN " ++ file_path ++ LF)) ;;
     let response := PyStr.strip received in
     parse_response response)
    (fun e =>
       logger_error ("Error scanning for malware: " ++ str e) ;;
       ret (false, "Scan error: " ++ str e)).

Definition analyze_image_content (file_path : string) : M (bool * string) :=
  try_except
    (img <- call (Image_open env file_path) ;;
     let '(width, height) := img_size img in
     if (width <? 10) || (height <? 10) then
       ret (false, "Image too small")
     else if (width >? 10000) || (height >? 10000) then
       ret (false, "Image too large")
     else
       (if str_in (img_mode img) ["RGBA"; "LA"] || str_in "transparency" (img_info img)
        then logger_info "Image contains transparency"
        else ret tt) ;;
       ret (true, "Image appears safe"))
    (fun e =>
       logger_error ("Error analyzing image content: " ++ str e) ;;
       ret (false, "Analysis error: " ++ str e)).

(** The loop [for chunk in iter(lambda: f.read(4096), b"")] of
    [generate_file_hash]: [fed] is what [update] has received so far. *)
Fixpoint hash_chunks (fed : list byte) (reads : list (outcome (list byte)))
    : outcome (list byte) :=
  match reads with
  | [] => Ok fed
  | Raise e :: _ => Raise e
  | Ok [] :: _ => Ok fed
  | Ok chunk :: rest => hash_chunks (fed ++ chunk)%list rest
  end.

Definition generate_file_hash (file_path : string) : M (option string) :=
  try_except
    (f <- call (open_rb env file_path) ;;
     fed <- call (hash_chunks [] f) ;;
     ret (Some (sha256_hexdigest env fed)))
    (fun e =>
       logger_error ("Error generating file hash: " ++ str e) ;;
       ret None).

(** The initial value of [results]. *)
Definition initial_results (path : string) : report :=
  {| file_path := path;
     timestamp := utcnow_isoformat env;
     file_hash := None;
     file_size := 0;
     file_type_valid := false;
     file_category := None;
     mime_type := None;
     size_valid := false;
     malware_scan := {| clean := false; malware_details := "Not scanned" |};
     content_analysis := {| safe := false; content_details := "Not analyzed" |};
     overall_safe := false;
     errors := [] |}.

(** [category == 'image'] *)
Definition is_image (category : option string) : bool :=
  match category with
  | Some c => String.eqb c "image"
  | None => false
  end.

(** The body of the [try] statement of [comprehensive_scan].  The keys of
    [results] have the names of some locals of the method, so here the
    locals [mime_type], [size_valid], [file_size], [malware_details] and
    [content_details] are [mime], [size_ok], [size], [details] and
    [cdetails], and the parameter [file_path] is [path]. *)
Definition comprehensive_scan_try (path : string) : SM report unit :=
  (* Generate file hash *)
  h <- lift (generate_file_hash path) ;;
  assign (set_file_hash h) ;;
  (* Validate file type *)
  ' (type_valid, category, mime) <- lift (validate_file_type path) ;;
  assign (set_file_type_valid type_valid) ;;
  assign (set_file_category category) ;;
  assign (set_mime_type mime) ;;
  (if negb type_valid then
     assign (errors_append "Invalid file type") ;;
     return_results
   else ret tt) ;;
  (* Validate file size *)
  ' (size_ok, size) <- lift (validate_file_size path MAX_FILE_SIZE) ;;
  assign (set_size_valid size_ok) ;;
  assign (set_file_size size) ;;
  (if negb size_ok then
     assign (errors_append "File too large") ;;
     return_results
   else ret tt) ;;
  (* Malware scan *)
  ' (malware_clean, details) <- lift (scan_for_malware path) ;;
  assign (set_malware_scan {| clean := malware_clean; malware_details := details |}) ;;
  (if negb malware_clean then
     assign (errors_append ("Malware detected: " ++ details)) ;;
     return_results
   else ret tt) ;;
  (* Content analysis for images *)
  (if is_image category then
     ' (content_safe, cdetails) <- lift (analyze_image_content path) ;;
     assign (set_content_analysis {| safe := content_safe; content_details := cdetails |}) ;;
     (if negb content_safe then
        assign (errors_append ("Content issue: " ++ cdetails)) ;;
        return_results
      else ret tt)
   else
     assign (set_content_analysis
               {| safe := true; content_details := "Content analysis not applicable" |})) ;;
  (* Overall assessment *)
  results <- get ;;
  assign (set_overall_safe
            (file_type_valid results && size_valid results
             && clean (malware_scan results) && safe (content_analysis results))).

(** [comprehensive_scan(file_path)]: the log it writes, the [results] it
    returns, and the exception it lets through, if any. *)
Definition comprehensive_scan_run (path : string)
    : list log_record * report * signal unit :=
  SM_try_except
    (comprehensive_scan_try path)
    (fun e =>
       SM_error ("Error in comprehensive scan: " ++ str e) ;;
       assign (errors_append ("Scan error: " ++ str e)))
    (initial_results path).

(** The value [comprehensive_scan] returns: both [return results] inside
    the [try] and the one that ends the method give back the dict as it
    then is. *)
Definition comprehensive_scan (path : string) : outcome report :=
  match comprehensive_scan_run path with
  | (_, results, Normal _) => Ok results
  | (_, results, Returned) => Ok results
  | (_, _, Raised e) => Raise e
  end.

End Methods.

End ContentModerator.

Import ContentModerator.

(* ===================================================================== *)
(** ** Environments *)
(* ===================================================================== *)

(** The environment [env] with one of its parts replaced. *)
Definition with_magic (f : string -> outcome string) (env : Env) : Env :=
  {| magic_from_file := f; os_path_getsize := os_path_getsize env;
     CLAMAV_HOST := CLAMAV_HOST env; CLAMAV_PORT := CLAMAV_PORT env;
     clamd_exchange := clamd_exchange env; Image_open := Image_open env;
     open_rb := open_rb env; sha256_hexdigest := sha256_hexdigest env;
     utcnow_isoformat := utcnow_isoformat env |}.

Definition with_getsize (f : string -> outcome Z) (env : Env) : Env :=
  {| magic_from_file := magic_from_file env; os_path_getsize := f;
     CLAMAV_HOST := CLAMAV_HOST env; CLAMAV_PORT := CLAMAV_PORT env;
     clamd_exchange := clamd_exchange env; Image_open := Image_open env;
     open_rb := open_rb env; sha256_hexdigest := sha256_hexdigest env;
     utcnow_isoformat := utcnow_isoformat env |}.

Definition with_clamd (f : string -> Z -> string -> outcome string) (env : Env) : Env :=
  {| magic_from_file := magic_from_file env; os_path_getsize := os_path_getsize env;
     CLAMAV_HOST := CLAMAV_HOST env; CLAMAV_PORT := CLAMAV_PORT env;
     clamd_exchange := f; Image_open := Image_open env;
     open_rb := open_rb env; sha256_hexdigest := sha256_hexdigest env;
     utcnow_isoformat := utcnow_isoformat env |}.

Definition with_image (f : string -> outcome image) (env : Env) : Env :=
  {| magic_from_file := magic_from_file env; os_path_getsize := os_path_getsize env;
     CLAMAV_HOST := CLAMAV_HOST env; CLAMAV_PORT := CLAMAV_PORT env;
     clamd_exchange := clamd_exchange env; Image_open := f;
     open_rb := open_rb env; sha256_hexdigest := sha256_hexdigest env;
     utcnow_isoformat := utcnow_isoformat env |}.

Definition with_open_rb (f : string -> outcome (list (outcome (list byte)))) (env : Env) : Env :=
  {| magic_from_file := magic_from_file env; os_path_getsize := os_path_getsize env;
     CLAMAV_HOST := CLAMAV_HOST env; CLAMAV_PORT := CLAMAV_PORT env;
     clamd_exchange := clamd_exchange env; Image_open := Image_open env;
     open_rb := f; sha256_hexdigest := sha256_hexdigest env;
     utcnow_isoformat := utcnow_isoformat env |}.

(** The daemon answers every command with the text [t]. *)
Definition clamd_says (t : string) (env : Env) : Env :=
  with_clamd (fun _ _ _ => Ok t) env.

(** Every image opens with the given size, mode and info keys. *)
Definition image_is (w h : Z) (mode : string) (info : list string) (env : Env) : Env :=
  with_image (fun _ => Ok {| img_size := (w, h); img_mode := mode; img_info := info |}) env.

(** A sample environment: every file is a readable PNG of 1024 bytes and
    100 by 100 pixels, the daemon answers ["stream: OK"], and the digest
    function is a stand-in that ignores its input. *)
Definition sample_env : Env :=
  {| magic_from_file := fun _ => Ok "image/png";
     os_path_getsize := fun _ => Ok 1024;
     CLAMAV_HOST := "clamav";
     CLAMAV_PORT := 3310;
     clamd_exchange := fun _ _ _ => Ok ("stream: OK" ++ LF);
     Image_open := fun _ => Ok {| img_size := (100, 100); img_mode := "RGB"; img_info := [] |};
     open_rb := fun _ => Ok [Ok [x89; x50; x4e; x47]; Ok []];
     sha256_hexdigest := fun _ => "0f4636c78f65d3639ece5a064b5ae753e3408614a14fb18ab4d7540d2c248543";
     utcnow_isoformat := "2024-01-01T00:00:00" |}.

(** The sample environment with a file object whose second read raises. *)
Definition failing_read_env : Env :=
  with_open_rb (fun _ => Ok [Ok [x89; x50]; Raise (Exception "Input/output error")])
               sample_env.

(* ===================================================================== *)
(** ** Vocabulary of the properties *)
(* ===================================================================== *)

(** The method call [m] ends by returning [v]. *)
Definition returns {A : Type} (m : M A) (v : A) : Prop := result m = Ok v.

(** What [scan_for_malware] receives from the daemon for [path]: the
    decoded text before [.strip()], or the exception of the exchange. *)
Definition daemon_answer (env : Env) (path : string) : outcome string :=
  clamd_exchange env (CLAMAV_HOST env) (CLAMAV_PORT env) ("SCAN " ++ path ++ LF).

(** A read of the file object [f] raises [e] before the end of the file is
    reached. *)
Definition read_fault (f : list (outcome (list byte))) (e : exc) : Prop :=
  exists chunks rest,
    Forall (fun chunk => chunk <> []) chunks
    /\ f = (map Ok chunks ++ Raise e :: rest)%list.

(** Hashing [path] meets the I/O fault [e]: on opening the file or on
    reading it. *)
Definition hashing_faults (env : Env) (path : string) (e : exc) : Prop :=
  open_rb env path = Raise e
  \/ exists f, open_rb env path = Ok f /\ read_fault f e.

(** The stages of the pipeline that can reject a file. *)
Inductive stage : Type := TypeCheck | SizeCheck | MalwareScan | ContentCheck.

(** [first_failure env path s msg]: in a run on [path], every stage before
    [s] passes, stage [s] is reached and reports failure; [msg] is the
    error entry that describes this failure. *)
Inductive first_failure (env : Env) (path : string) : stage -> string -> Prop :=
| fail_type (c m : option string) :
    returns (validate_file_type env path) (false, c, m) ->
    first_failure env path TypeCheck "Invalid file type"
| fail_size (c m : option string) (n : Z) :
    returns (validate_file_type env path) (true, c, m) ->
    returns (validate_file_size env path MAX_FILE_SIZE) (false, n) ->
    first_failure env path SizeCheck "File too large"
| fail_malware (c m : option string) (n : Z) (d : string) :
    returns (validate_file_type env path) (true, c, m) ->
    returns (validate_file_size env path MAX_FILE_SIZE) (true, n) ->
    returns (scan_for_malware env path) (false, d) ->
    first_failure env path MalwareScan ("Malware detected: " ++ d)
| fail_content (c m : option string) (n : Z) (d cd : string) :
    returns (validate_file_type env path) (true, c, m) ->
    returns (validate_file_size env path MAX_FILE_SIZE) (true, n) ->
    returns (scan_for_malware env path) (true, d) ->
    is_image c = true ->
    returns (analyze_image_content env path) (false, cd) ->
    first_failure env path ContentCheck ("Content issue: " ++ cd).

(** The entries [results] is created with: the malware scan and the
    content analysis that did not run. *)
Definition not_scanned : malware_entry :=
  {| clean := false; malware_details := "Not scanned" |}.

Definition not_analyzed : content_entry :=
  {| safe := false; content_details := "Not analyzed" |}.

(** The fields written by the stages after [s] hold the value they were
    created with. *)
Definition later_fields_unset (s : stage) (r : report) : Prop :=
  match s with
  | TypeCheck =>
      size_valid r = false /\ file_size r = 0 /\ malware_scan r = not_scanned
      /\ content_analysis r = not_analyzed /\ overall_safe r = false
  | SizeCheck =>
      malware_scan r = not_scanned /\ content_analysis r = not_analyzed
      /\ overall_safe r = false
  | MalwareScan =>
      content_analysis r = not_analyzed /\ overall_safe r = false
  | ContentCheck =>
      overall_safe r = false
  end.

(** The log written by the stages up to and including [s]. *)
Definition log_upto (env : Env) (path : string) (s : stage) : list log_record :=
  let hash := written (generate_file_hash env path) in
  let type := written (validate_file_type env path) in
  let size := written (validate_file_size env path MAX_FILE_SIZE) in
  let malware := written (scan_for_malware env path) in
  let content := written (analyze_image_content env path) in
  match s with
  | TypeCheck => hash ++ type
  | SizeCheck => hash ++ type ++ size
  | MalwareScan => hash ++ type ++ size ++ malware
  | ContentCheck => hash ++ type ++ size ++ malware ++ content
  end%list.

(** The content verdict of a file of the given category is Safe: the image
    heuristic says so for an image, and it is Safe by default otherwise. *)
Definition content_safe_for (env : Env) (path : string) (category : option string) : Prop :=
  if is_image category
  then exists d, returns (analyze_image_content env path) (true, d)
  else True.

(** Every check of the pipeline passes on [path]. *)
Definition all_checks_pass (env : Env) (path : string) : Prop :=
  exists (c m : option string) (n : Z) (d : string),
    returns (validate_file_type env path) (true, c, m)
    /\ returns (validate_file_size env path MAX_FILE_SIZE) (true, n)
    /\ returns (scan_for_malware env path) (true, d)
    /\ content_safe_for env path c.

(** [accepted env path]: what the outside world must be like for [path] to
    pass every check: libmagic names a type that starts with a prefix of a
    category listing the extension, the size can be read and is within
    [MAX_FILE_SIZE], the daemon answers with a text that contains OK, and,
    for the category image, the image opens with both sides between 10 and
    10000. *)
Definition accepted (env : Env) (path : string) : Prop :=
  exists (mt category : string) (extensions : list string) (size : Z) (received : string),
    magic_from_file env path = Ok mt
    /\ In (category, extensions) ALLOWED_EXTENSIONS
    /\ str_in (extension path) extensions = true
    /\ _mime_matches_extension mt category = true
    /\ os_path_getsize env path = Ok size
    /\ size <= MAX_FILE_SIZE
    /\ daemon_answer env path = Ok received
    /\ PyStr.contains "OK" received = true
    /\ (category = "image" ->
        exists img w h,
          Image_open env path = Ok img /\ img_size img = (w, h)
          /\ 10 <= w <= 10000 /\ 10 <= h <= 10000).

(** Some character of [base] is not a dot. *)
Definition not_only_dots (base : string) : bool :=
  existsb (fun c => negb (Ascii.eqb c ".")) (list_ascii_of_string base).

(** An error entry as one of the four stages writes it. *)
Definition stage_error (msg : string) : Prop :=
  msg = "Invalid file type" \/ msg = "File too large"
  \/ (exists d, msg = "Malware detected: " ++ d)
  \/ (exists d, msg = "Content issue: " ++ d).

(* ===================================================================== *)
(** ** The /validate route *)
(* ===================================================================== *)

Module Routes.

(** The [results] dict of [validate_file]. *)
Record validation : Type := {
  v_file_type_valid : bool;
  v_file_category : option string;
  v_mime_type : option string;
  v_size_valid : bool;
  v_file_size : Z;
  valid : bool
}.

(** The quick validation of [validate_file]: the two calls on the saved
    upload and the dict built from them, before the temporary file is
    removed. *)
Definition quick_validation (env : Env) (temp_path : string) : M validation :=
  ' (type_valid, category, mime) <- validate_file_type env temp_path ;;
  ' (size_ok, size) <- validate_file_size env temp_path MAX_FILE_SIZE ;;
  ret {| v_file_type_valid := type_valid;
         v_file_category := category;
         v_mime_type := mime;
         v_size_valid := size_ok;
         v_file_size := size;
         valid := type_valid && size_ok |}.

End Routes.

Import Routes.

(* ===================================================================== *)
(** ** Facts about the string methods *)
(* ===================================================================== *)

Example splitext_upper : PyStr.splitext "/tmp/evil.JPG" = ("/tmp/evil", ".JPG").
Proof. reflexivity. Qed.

Example splitext_dotfile : PyStr.splitext "/tmp/.bashrc" = ("/tmp/.bashrc", "").
Proof. reflexivity. Qed.

Example splitext_last_dot :
  PyStr.splitext "/tmp.d/archive.tar.gz" = ("/tmp.d/archive.tar", ".gz").
Proof. reflexivity. Qed.

Example splitext_dot_in_directory : PyStr.splitext "/tmp.d/noext" = ("/tmp.d/noext", "").
Proof. reflexivity. Qed.

Example extension_lowered : extension "/srv/uploads/Report.final.PDF" = "pdf".
Proof. reflexivity. Qed.

Example split_answer : PyStr.split ":" "stream: OK" = ["stream"; " OK"].
Proof. reflexivity. Qed.

Example split_empty : PyStr.split ":" "" = [""].
Proof. reflexivity. Qed.

Example split_empty_fields : PyStr.split ":" "a::b:" = ["a"; ""; "b"; ""].
Proof. reflexivity. Qed.

Example strip_both_ends : PyStr.strip ("  stream: OK " ++ LF) = "stream: OK".
Proof. reflexivity. Qed.

Example lower_latin1 : PyStr.lower "JpEg" = "jpeg".
Proof. reflexivity. Qed.

Lemma startswith_app (pre rest : string) : PyStr.startswith (pre ++ rest) pre = true.
Proof.
  induction pre as [|a pre IH]; simpl; [reflexivity|].
  now rewrite Ascii.eqb_refl, IH.
Qed.

Lemma startswith_inv (s pre : string) :
  PyStr.startswith s pre = true -> exists rest, s = pre ++ rest.
Proof.
  revert s; induction pre as [|a pre IH]; intros s H; simpl in *.
  - now exists s.
  - destruct s as [|b s]; [discriminate|].
    apply andb_true_iff in H as [Hab Hs].
    apply Ascii.eqb_eq in Hab; subst b.
    destruct (IH _ Hs) as [rest ->]. now exists rest.
Qed.

(** [needle in s] holds exactly when [s] is [before ++ needle ++ after]. *)
Lemma contains_spec (needle s : string) :
  PyStr.contains needle s = true <-> exists before after, s = before ++ needle ++ after.
Proof.
  split.
  - induction s as [|c s IH]; simpl; intros H.
    + rewrite orb_false_r in H. apply startswith_inv in H as [rest ->].
      now exists "", rest.
    + apply orb_true_iff in H as [H|H].
      * apply startswith_inv in H as [rest ->]. now exists "", rest.
      * destruct (IH H) as (b & a & ->). now exists (String c b), a.
  - intros (b & a & ->). induction b as [|c b IH]; simpl.
    + pose proof (startswith_app needle a) as H.
      destruct (needle ++ a); simpl; rewrite H; reflexivity.
    + rewrite IH. apply orb_true_r.
Qed.

(** The result of [split] is never empty, so index 0 always exists. *)
Lemma split_nonempty (sep : ascii) (s : string) : PyStr.split sep s <> [].
Proof.
  induction s as [|c s IH]; simpl; [discriminate|].
  destruct (Ascii.eqb c sep); [discriminate|].
  destruct (PyStr.split sep s); [contradiction | discriminate].
Qed.

(** [split] yields a second field exactly when the separator occurs. *)
Lemma split_second_field (sep : ascii) (s : string) :
  PyStr.has_char sep s = true <-> exists f0 f1 rest, PyStr.split sep s = f0 :: f1 :: rest.
Proof.
  induction s as [|c s IH]; simpl.
  - split; [discriminate | intros (? & ? & ? & H); discriminate].
  - destruct (Ascii.eqb c sep) eqn:E; simpl.
    + split; [intros _ | reflexivity].
      destruct (PyStr.split sep s) as [|f1 rest] eqn:Es.
      * now apply split_nonempty in Es.
      * now exists "", f1, rest.
    + rewrite IH. destruct (PyStr.split sep s) as [|h r] eqn:Es.
      * now apply split_nonempty in Es.
      * split; intros (f0 & f1 & rest & H).
        -- injection H as -> ->. now exists (String c f0), f1, rest.
        -- injection H as <- ->. now exists h, f1, rest.
Qed.

(** Stripping white space from the right keeps every prefix that has no
    white space in it. *)
Lemma startswith_rstrip (s n : string) :
  PyStr.no_space n = true ->
  PyStr.startswith (PyStr.rstrip_by PyStr.isspace s) n = PyStr.startswith s n.
Proof.
  revert n; induction s as [|c t IH]; intros n Hn; [reflexivity|].
  destruct n as [|a n']; [reflexivity|].
  simpl in Hn. apply andb_true_iff in Hn as [Ha Hn'].
  specialize (IH n' Hn').
  cbn [PyStr.rstrip_by].
  destruct (PyStr.rstrip_by PyStr.isspace t) as [|c' t'] eqn:Et.
  - destruct (PyStr.isspace c) eqn:Ec.
    + cbn. destruct (Ascii.eqb_spec a c) as [->|]; [|reflexivity].
      now rewrite Ec in Ha.
    + cbn [PyStr.startswith]. now rewrite IH.
  - cbn [PyStr.startswith]. now rewrite IH.
Qed.

Lemma contains_rstrip (s n : string) :
  PyStr.no_space n = true ->
  PyStr.contains n (PyStr.rstrip_by PyStr.isspace s) = PyStr.contains n s.
Proof.
  intros Hn; induction s as [|c t IH]; [reflexivity|].
  pose proof (startswith_rstrip (String c t) n Hn) as Hs.
  cbn [PyStr.rstrip_by] in *.
  destruct (PyStr.rstrip_by PyStr.isspace t) as [|c' t'] eqn:Et.
  - destruct (PyStr.isspace c).
    + cbn [PyStr.contains] in *. rewrite <- IH, <- Hs.
      now destruct (PyStr.startswith "" n).
    + cbn [PyStr.contains] in *. now rewrite <- IH, <- Hs.
  - cbn [PyStr.contains] in *. now rewrite <- IH, <- Hs.
Qed.

Lemma contains_lstrip (s n : string) :
  PyStr.no_space n = true -> n <> "" ->
  PyStr.contains n (PyStr.lstrip_by PyStr.isspace s) = PyStr.contains n s.
Proof.
  intros Hn Hne; induction s as [|c t IH]; [reflexivity|].
  cbn [PyStr.lstrip_by].
  destruct (PyStr.isspace c) eqn:Ec; [|reflexivity].
  rewrite IH. cbn [PyStr.contains].
  destruct n as [|a n']; [contradiction|].
  simpl in Hn. apply andb_true_iff in Hn as [Ha _].
  cbn [PyStr.startswith].
  destruct (Ascii.eqb_spec a c) as [->|]; [|reflexivity].
  now rewrite Ec in Ha.
Qed.

(** [strip] neither adds nor removes an occurrence of a word that has no
    white space in it: the tests ["OK" in response] and ["FOUND" in
    response] see through the [.strip()] of the received text. *)
Lemma contains_strip (s n : string) :
  PyStr.no_space n = true -> n <> "" ->
  PyStr.contains n (PyStr.strip s) = PyStr.contains n s.
Proof.
  intros Hn Hne. unfold PyStr.strip.
  now rewrite contains_rstrip, contains_lstrip.
Qed.

(* ===================================================================== *)
(** ** Every stage converts its faults into a result *)
(* ===================================================================== *)

Lemma generate_file_hash_total (env : Env) (path : string) :
  exists l h, generate_file_hash env path = (l, Ok h).
Proof.
  unfold generate_file_hash.
  destruct (open_rb env path) as [f|e]; cbn; [|eauto].
  destruct (hash_chunks [] f); cbn; eauto.
Qed.

Lemma validate_file_type_total (env : Env) (path : string) :
  exists l v, validate_file_type env path = (l, Ok v).
Proof.
  unfold validate_file_type.
  destruct (magic_from_file env path) as [mt|e];
    cbn -[allowed_category ALLOWED_EXTENSIONS extension]; [|eauto].
  destruct (allowed_category _ _ _); cbn; eauto.
Qed.

Lemma validate_file_size_total (env : Env) (path : string) (max_size : Z) :
  exists l v, validate_file_size env path max_size = (l, Ok v).
Proof.
  unfold validate_file_size.
  destruct (os_path_getsize env path); cbn; eauto.
Qed.

Lemma scan_for_malware_total (env : Env) (path : string) :
  exists l v, scan_for_malware env path = (l, Ok v).
Proof.
  unfold scan_for_malware.
  destruct (clamd_exchange _ _ _ _) as [received|e];
    cbn -[parse_response PyStr.strip]; [|eauto].
  unfold parse_response.
  destruct (PyStr.contains "OK" _); [cbn; eauto|].
  destruct (PyStr.contains "FOUND" _); [|cbn; eauto].
  destruct (list_index _ _); cbn -[PyStr.strip]; eauto.
Qed.

Lemma analyze_image_content_total (env : Env) (path : string) :
  exists l v, analyze_image_content env path = (l, Ok v).
Proof.
  unfold analyze_image_content.
  destruct (Image_open env path) as [img|e]; cbn -[Z.ltb Z.gtb str_in]; [|eauto].
  destruct (img_size img) as [w h].
  destruct ((w <? 10) || (h <? 10)); [cbn; eauto|].
  destruct ((w >? 10000) || (h >? 10000)); [cbn; eauto|].
  destruct (str_in _ _ || str_in _ _); cbn; eauto.
Qed.

(* ===================================================================== *)
(** ** The pipeline, stage by stage *)
(* ===================================================================== *)

Ltac run_pipeline :=
  cbv beta iota zeta delta
    [comprehensive_scan comprehensive_scan_run comprehensive_scan_try
     SM_try_except bind ret Monad_SM SM_bind lift assign get return_results
     SM_error negb].

(** What the [try] block of [comprehensive_scan] does with the results of
    the five methods it calls: the log, the dict and the way the block is
    left. *)
Lemma comprehensive_scan_try_eq (env : Env) (path : string)
    (lh lt ls lm lc : list log_record) (h c m : option string)
    (tv sv mc cs : bool) (n : Z) (d cd : string) :
  generate_file_hash env path = (lh, Ok h) ->
  validate_file_type env path = (lt, Ok (tv, c, m)) ->
  validate_file_size env path MAX_FILE_SIZE = (ls, Ok (sv, n)) ->
  scan_for_malware env path = (lm, Ok (mc, d)) ->
  analyze_image_content env path = (lc, Ok (cs, cd)) ->
  comprehensive_scan_try env path (initial_results env path) =
    let r1 := set_mime_type m (set_file_category c (set_file_type_valid tv
                (set_file_hash h (initial_results env path)))) in
    let r2 := set_file_size n (set_size_valid sv r1) in
    let r3 := set_malware_scan {| clean := mc; malware_details := d |} r2 in
    let aggregate r :=
      set_overall_safe (file_type_valid r && size_valid r
                        && clean (malware_scan r) && safe (content_analysis r)) r in
    if negb tv then
      ((lh ++ lt)%list, errors_append "Invalid file type" r1, Returned)
    else if negb sv then
      ((lh ++ lt ++ ls)%list, errors_append "File too large" r2, Returned)
    else if negb mc then
      ((lh ++ lt ++ ls ++ lm)%list, errors_append ("Malware detected: " ++ d) r3, Returned)
    else if is_image c then
      let r4 := set_content_analysis {| safe := cs; content_details := cd |} r3 in
      if negb cs then
        ((lh ++ lt ++ ls ++ lm ++ lc)%list, errors_append ("Content issue: " ++ cd) r4, Returned)
      else
        ((lh ++ lt ++ ls ++ lm ++ lc)%list, aggregate r4, Normal tt)
    else
      let r4 := set_content_analysis
                  {| safe := true; content_details := "Content analysis not applicable" |} r3 in
      ((lh ++ lt ++ ls ++ lm)%list, aggregate r4, Normal tt).
Proof.
  intros Hh Ht Hs Hm Hc.
  unfold comprehensive_scan_try.
  rewrite Hh, Ht, Hs, Hm, Hc.
  run_pipeline.
  destruct tv, sv, mc, (is_image c), cs;
    cbn [app]; rewrite ?app_nil_r; reflexivity.
Qed.

(** The [try] block is never left by an exception, so the handler of
    [comprehensive_scan] does not run. *)
Lemma comprehensive_scan_try_not_raised (env : Env) (path : string) :
  exists log r sig,
    comprehensive_scan_try env path (initial_results env path) = (log, r, sig)
    /\ (sig = Normal tt \/ sig = Returned).
Proof.
  destruct (generate_file_hash_total env path) as (lh & h & Hh).
  destruct (validate_file_type_total env path) as (lt & [[tv c] m] & Ht).
  destruct (validate_file_size_total env path MAX_FILE_SIZE) as (ls & [sv n] & Hs).
  destruct (scan_for_malware_total env path) as (lm & [mc d] & Hm).
  destruct (analyze_image_content_total env path) as (lc & [cs cd] & Hc).
  rewrite (comprehensive_scan_try_eq _ _ _ _ _ _ _ _ _ _ _ _ _ _ _ _ _ Hh Ht Hs Hm Hc).
  cbv zeta.
  destruct tv, sv, mc, (is_image c), cs; cbn [negb]; eauto 6.
Qed.

Lemma comprehensive_scan_run_try (env : Env) (path : string) :
  comprehensive_scan_run env path
  = comprehensive_scan_try env path (initial_results env path).
Proof.
  destruct (comprehensive_scan_try_not_raised env path) as (log & r & sig & H & Hsig).
  unfold comprehensive_scan_run, SM_try_except. rewrite H.
  destruct Hsig as [-> | ->]; reflexivity.
Qed.

(** The results of the five methods on [path], and the run they give. *)
Ltac scan_cases env path :=
  destruct (generate_file_hash_total env path) as (lh & h & Hh);
  destruct (validate_file_type_total env path) as (lt & [[tv c] m] & Ht);
  destruct (validate_file_size_total env path MAX_FILE_SIZE) as (ls & [sv n] & Hs);
  destruct (scan_for_malware_total env path) as (lm & [mc d] & Hm);
  destruct (analyze_image_content_total env path) as (lc & [cs cd] & Hc);
  pose proof (comprehensive_scan_try_eq _ _ _ _ _ _ _ _ _ _ _ _ _ _ _ _ _ Hh Ht Hs Hm Hc)
    as Hrun;
  rewrite <- comprehensive_scan_run_try in Hrun; cbv zeta in Hrun.

Lemma returns_inj {A : Type} (m : M A) (l : list log_record) (v w : A) :
  m = (l, Ok v) -> returns m w -> w = v.
Proof. intros -> H. unfold returns, result in H. cbn in H. congruence. Qed.

Lemma returns_intro {A : Type} (m : M A) (l : list log_record) (v : A) :
  m = (l, Ok v) -> returns m v.
Proof. now intros ->. Qed.

(* ===================================================================== *)
(** ** Properties of the pipeline *)
(* ===================================================================== *)

(** C1. For every environment and file path, [comprehensive_scan] returns a
    report whose [overall_safe] is true if and only if its type-valid flag,
    its size-valid flag, the clean flag of its malware scan and the safe
    flag of its content analysis are all true; equivalently, if and only if
    the type check, the size check and the malware scan pass and the content
    verdict is Safe, which it is by default for a category other than
    image: for such a report the first three flags alone decide. *)
Theorem overall_safe_iff_all_checks (env : Env) (path : string) :
  exists r,
    comprehensive_scan env path = Ok r
    /\ (overall_safe r = true <->
        file_type_valid r = true /\ size_valid r = true
        /\ clean (malware_scan r) = true /\ safe (content_analysis r) = true)
    /\ (overall_safe r = true <-> all_checks_pass env path)
    /\ (is_image (file_category r) = false ->
        (overall_safe r = true <->
         file_type_valid r = true /\ size_valid r = true
         /\ clean (malware_scan r) = true)).
Proof.
  scan_cases env path.
  unfold comprehensive_scan. rewrite Hrun.
  assert (Hpass : all_checks_pass env path <->
                  tv = true /\ sv = true /\ mc = true
                  /\ (is_image c = true -> cs = true)).
  { unfold all_checks_pass, content_safe_for. split.
    - intros (c' & m' & n' & d' & H1 & H2 & H3 & H4).
      apply (returns_inj _ _ _ _ Ht) in H1.
      apply (returns_inj _ _ _ _ Hs) in H2.
      apply (returns_inj _ _ _ _ Hm) in H3.
      injection H1 as <- -> ->. injection H2 as <- ->. injection H3 as <- ->.
      repeat split; trivial. intros Ei. rewrite Ei in H4.
      destruct H4 as (d'' & H4). apply (returns_inj _ _ _ _ Hc) in H4.
      now injection H4 as <- ->.
    - intros (-> & -> & -> & Hcs). exists c, m, n, d.
      repeat split; eauto using returns_intro.
      destruct (is_image c); [|exact I].
      rewrite (Hcs eq_refl) in Hc. exists cd. eauto using returns_intro. }
  destruct tv, sv, mc, (is_image c) eqn:Ei, cs; cbn [negb];
    eexists; (split; [reflexivity|]); rewrite Hpass; cbn; rewrite ?Ei;
    intuition congruence.
Qed.

(** A run of the sample environment in which everything passes: the report
    is safe, carries a hash and a category, and has no error entry. *)
Example sample_scan_is_safe :
  comprehensive_scan sample_env "/srv/uploads/photo.PNG"
  = Ok {| file_path := "/srv/uploads/photo.PNG";
          timestamp := "2024-01-01T00:00:00";
          file_hash := Some "0f4636c78f65d3639ece5a064b5ae753e3408614a14fb18ab4d7540d2c248543";
          file_size := 1024;
          file_type_valid := true;
          file_category := Some "image";
          mime_type := Some "image/png";
          size_valid := true;
          malware_scan := {| clean := true; malware_details := "Clean" |};
          content_analysis := {| safe := true; content_details := "Image appears safe" |};
          overall_safe := true;
          errors := [] |}.
Proof. vm_compute. reflexivity. Qed.

(** Every run either passes every check or has a first failing stage. *)
Lemma pass_or_first_failure (env : Env) (path : string) :
  all_checks_pass env path \/ exists s msg, first_failure env path s msg.
Proof.
  destruct (validate_file_type_total env path) as (lt & [[tv c] m] & Ht).
  destruct (validate_file_size_total env path MAX_FILE_SIZE) as (ls & [sv n] & Hs).
  destruct (scan_for_malware_total env path) as (lm & [mc d] & Hm).
  destruct (analyze_image_content_total env path) as (lc & [cs cd] & Hc).
  apply returns_intro in Ht, Hs, Hm, Hc.
  destruct tv; [|right; eauto using fail_type].
  destruct sv; [|right; eauto using fail_size].
  destruct mc; [|right; eauto using fail_malware].
  destruct (is_image c) eqn:Ei.
  - destruct cs; [|right; eauto using fail_content].
    left. exists c, m, n, d. repeat split; trivial.
    unfold content_safe_for. rewrite Ei. now exists cd.
  - left. exists c, m, n, d. repeat split; trivial.
    unfold content_safe_for. now rewrite Ei.
Qed.

(** C2. In every run in which a stage (TypeCheck, SizeCheck, MalwareScan or
    the ContentCheck of an image) is the first to fail, the [try] block is
    left by the [return] of that stage, having logged nothing beyond that
    stage; the returned report has exactly one error entry, the one that
    describes the failure, and every field written by a later stage still
    holds its initial "not run" value. *)
Theorem short_circuit_on_first_failure
    (env : Env) (path : string) (s : stage) (msg : string) :
  first_failure env path s msg ->
  exists r,
    comprehensive_scan_run env path = (log_upto env path s, r, Returned)
    /\ comprehensive_scan env path = Ok r
    /\ errors r = [msg]
    /\ later_fields_unset s r.
Proof.
  intros Hfail. scan_cases env path.
  unfold comprehensive_scan, log_upto. rewrite Hrun, Hh, Ht, Hs, Hm, Hc.
  unfold written; cbn [fst].
  destruct Hfail as [c' m' H1 | c' m' n' H1 H2 | c' m' n' d' H1 H2 H3
                    | c' m' n' d' cd' H1 H2 H3 Hi H4].
  - apply (returns_inj _ _ _ _ Ht) in H1. injection H1 as <- -> ->.
    cbn [negb]. eexists; repeat split; reflexivity.
  - apply (returns_inj _ _ _ _ Ht) in H1. injection H1 as <- -> ->.
    apply (returns_inj _ _ _ _ Hs) in H2. injection H2 as <- ->.
    cbn [negb]. eexists; repeat split; reflexivity.
  - apply (returns_inj _ _ _ _ Ht) in H1. injection H1 as <- -> ->.
    apply (returns_inj _ _ _ _ Hs) in H2. injection H2 as <- ->.
    apply (returns_inj _ _ _ _ Hm) in H3. injection H3 as <- ->.
    cbn [negb]. eexists; repeat split; reflexivity.
  - apply (returns_inj _ _ _ _ Ht) in H1. injection H1 as <- -> ->.
    apply (returns_inj _ _ _ _ Hs) in H2. injection H2 as <- ->.
    apply (returns_inj _ _ _ _ Hm) in H3. injection H3 as <- ->.
    apply (returns_inj _ _ _ _ Hc) in H4. injection H4 as <- ->.
    rewrite Hi. cbn [negb]. eexists; repeat split; reflexivity.
Qed.

(** C4. For every environment, whatever faults its calls raise, and every
    file path: each of the five methods ends by returning a value; the [try]
    block of [comprehensive_scan] is left normally or by [return], never by
    an exception, so the [except] handler does not run and writes neither a
    log record nor an error entry; and [comprehensive_scan] returns a
    report. *)
Theorem comprehensive_scan_never_raises (env : Env) (path : string) :
  (exists h, returns (generate_file_hash env path) h)
  /\ (exists v, returns (validate_file_type env path) v)
  /\ (forall max_size, exists v, returns (validate_file_size env path max_size) v)
  /\ (exists v, returns (scan_for_malware env path) v)
  /\ (exists v, returns (analyze_image_content env path) v)
  /\ exists log r sig,
       comprehensive_scan_try env path (initial_results env path) = (log, r, sig)
       /\ (sig = Normal tt \/ sig = Returned)
       /\ comprehensive_scan_run env path = (log, r, sig)
       /\ comprehensive_scan env path = Ok r.
Proof.
  repeat split.
  - destruct (generate_file_hash_total env path) as (l & v & H).
    eauto using returns_intro.
  - destruct (validate_file_type_total env path) as (l & v & H).
    eauto using returns_intro.
  - intros max_size.
    destruct (validate_file_size_total env path max_size) as (l & v & H).
    eauto using returns_intro.
  - destruct (scan_for_malware_total env path) as (l & v & H).
    eauto using returns_intro.
  - destruct (analyze_image_content_total env path) as (l & v & H).
    eauto using returns_intro.
  - destruct (comprehensive_scan_try_not_raised env path) as (log & r & sig & H & Hsig).
    exists log, r, sig. rewrite <- H at 2.
    repeat split; trivial; [apply comprehensive_scan_run_try|].
    unfold comprehensive_scan. rewrite comprehensive_scan_run_try, H.
    destruct Hsig as [-> | ->]; reflexivity.
Qed.

Lemma short_circuit_on_first_failure_witness :
  exists r,
    comprehensive_scan_run
      (clamd_says "stream: Eicar-Test-Signature FOUND" sample_env) "/srv/uploads/eicar.png"
    = (log_upto (clamd_says "stream: Eicar-Test-Signature FOUND" sample_env)
                "/srv/uploads/eicar.png" MalwareScan, r, Returned)
    /\ comprehensive_scan
         (clamd_says "stream: Eicar-Test-Signature FOUND" sample_env) "/srv/uploads/eicar.png"
       = Ok r
    /\ errors r = ["Malware detected: Eicar-Test-Signature FOUND"]
    /\ later_fields_unset MalwareScan r.
Proof.
  apply (short_circuit_on_first_failure
           (clamd_says "stream: Eicar-Test-Signature FOUND" sample_env)
           "/srv/uploads/eicar.png" MalwareScan
           ("Malware detected: " ++ "Eicar-Test-Signature FOUND")).
  apply (fail_malware _ _ (Some "image") (Some "image/png") 1024
                      "Eicar-Test-Signature FOUND");
    vm_compute; reflexivity.
Defined.

(** The other three ways to fail, run on concrete environments. *)
Example type_failure_run :
  comprehensive_scan
    (with_magic (fun _ => Ok "application/x-executable") sample_env) "/srv/uploads/evil.jpg"
  = Ok {| file_path := "/srv/uploads/evil.jpg";
          timestamp := "2024-01-01T00:00:00";
          file_hash := Some "0f4636c78f65d3639ece5a064b5ae753e3408614a14fb18ab4d7540d2c248543";
          file_size := 0;
          file_type_valid := false;
          file_category := None;
          mime_type := Some "application/x-executable";
          size_valid := false;
          malware_scan := not_scanned;
          content_analysis := not_analyzed;
          overall_safe := false;
          errors := ["Invalid file type"] |}.
Proof. vm_compute. reflexivity. Qed.

Example size_failure_run :
  comprehensive_scan
    (with_getsize (fun _ => Ok 10485761) sample_env) "/srv/uploads/big.png"
  = Ok {| file_path := "/srv/uploads/big.png";
          timestamp := "2024-01-01T00:00:00";
          file_hash := Some "0f4636c78f65d3639ece5a064b5ae753e3408614a14fb18ab4d7540d2c248543";
          file_size := 10485761;
          file_type_valid := true;
          file_category := Some "image";
          mime_type := Some "image/png";
          size_valid := false;
          malware_scan := not_scanned;
          content_analysis := not_analyzed;
          overall_safe := false;
          errors := ["File too large"] |}.
Proof. vm_compute. reflexivity. Qed.

Example content_failure_run :
  comprehensive_scan (image_is 9 9 "RGB" [] sample_env) "/srv/uploads/dot.png"
  = Ok {| file_path := "/srv/uploads/dot.png";
          timestamp := "2024-01-01T00:00:00";
          file_hash := Some "0f4636c78f65d3639ece5a064b5ae753e3408614a14fb18ab4d7540d2c248543";
          file_size := 1024;
          file_type_valid := true;
          file_category := Some "image";
          mime_type := Some "image/png";
          size_valid := true;
          malware_scan := {| clean := true; malware_details := "Clean" |};
          content_analysis := {| safe := false; content_details := "Image too small" |};
          overall_safe := false;
          errors := ["Content issue: Image too small"] |}.
Proof. vm_compute. reflexivity. Qed.

(* ===================================================================== *)
(** ** The daemon's answer *)
(* ===================================================================== *)

(** The first field of [split] has no separator in it and is followed in
    [s] by a separator and the text the other fields come from. *)
Lemma split_first_field (sep : ascii) (s f0 : string) (rest : list string) :
  PyStr.split sep s = f0 :: rest ->
  PyStr.has_char sep f0 = false
  /\ match rest with
     | [] => s = f0
     | _ :: _ => exists s', s = f0 ++ String sep s' /\ PyStr.split sep s' = rest
     end.
Proof.
  revert f0 rest; induction s as [|c t IH]; intros f0 rest H; simpl in H.
  - injection H as <- <-. now split.
  - destruct (Ascii.eqb_spec c sep) as [->|Hne].
    + injection H as <- <-. split; [reflexivity|].
      destruct (PyStr.split sep t) eqn:Et; [now apply split_nonempty in Et|].
      now exists t.
    + destruct (PyStr.split sep t) as [|h r] eqn:Et; [now apply split_nonempty in Et|].
      injection H as <- <-. destruct (IH h r eq_refl) as [Hh Hr].
      split.
      * simpl. rewrite Hh. now destruct (Ascii.eqb_spec c sep).
      * destruct r; [now subst|].
        destruct Hr as (s' & -> & Hs'). now exists s'.
Qed.

(** The second field of [split] is the text between the first separator and
    the second one, or the end of [s] when there is no second one. *)
Lemma split_second_field_between (sep : ascii) (s f0 f1 : string) (rest : list string) :
  PyStr.split sep s = f0 :: f1 :: rest ->
  PyStr.has_char sep f0 = false /\ PyStr.has_char sep f1 = false
  /\ exists tail, s = f0 ++ String sep (f1 ++ tail)
                  /\ (tail = "" \/ exists t, tail = String sep t).
Proof.
  intros H. destruct (split_first_field _ _ _ _ H) as [H0 (s' & -> & H')].
  destruct (split_first_field _ _ _ _ H') as [H1 Hrest].
  repeat split; trivial.
  destruct rest.
  - subst s'. exists "". split; [|now left].
    f_equal. f_equal. clear. induction f1; simpl; congruence.
  - destruct Hrest as (s'' & -> & _). exists (String sep s''). split; [reflexivity|].
    right. now exists s''.
Qed.

(** The tests ["OK" in response] and ["FOUND" in response] on the stripped
    text are the same tests on the text received. *)
Lemma contains_OK_strip (received : string) :
  PyStr.contains "OK" (PyStr.strip received) = PyStr.contains "OK" received.
Proof. apply contains_strip; [reflexivity | discriminate]. Qed.

Lemma contains_FOUND_strip (received : string) :
  PyStr.contains "FOUND" (PyStr.strip received) = PyStr.contains "FOUND" received.
Proof. apply contains_strip; [reflexivity | discriminate]. Qed.

(** [scan_for_malware] once the daemon has answered. *)
Lemma scan_for_malware_answered (env : Env) (path received : string) :
  daemon_answer env path = Ok received ->
  scan_for_malware env path
  = try_except (parse_response (PyStr.strip received))
      (fun e =>
         logger_error ("Error scanning for malware: " ++ str e) ;;
         ret (false, "Scan error: " ++ str e)).
Proof.
  unfold daemon_answer, scan_for_malware. intros ->.
  unfold try_except, bind, Monad_M, M_bind, call.
  destruct (parse_response (PyStr.strip received)) as [l [v|e]]; reflexivity.
Qed.

(** What [scan_for_malware] does with the daemon's answer. For every text
    received from the daemon: if it
    contains OK the result is clean with details "Clean"; if it contains
    FOUND, no OK and at least one colon, the result is not clean and its
    details are the second colon-delimited field with the white space
    around it removed; if it contains neither OK nor FOUND the result is
    not clean with details "Scan failed".  When the exchange raises, the
    result is not clean with details "Scan error: " followed by the message
    of the exception. *)
Theorem scan_response_classification (env : Env) (path : string) :
  (forall received, daemon_answer env path = Ok received ->
     (PyStr.contains "OK" received = true ->
      returns (scan_for_malware env path) (true, "Clean"))
     /\ (PyStr.contains "OK" received = false ->
         PyStr.contains "FOUND" received = true ->
         forall f0 f1 rest,
           PyStr.split ":" (PyStr.strip received) = f0 :: f1 :: rest ->
           returns (scan_for_malware env path) (false, PyStr.strip f1))
     /\ (PyStr.contains "OK" received = false ->
         PyStr.contains "FOUND" received = false ->
         returns (scan_for_malware env path) (false, "Scan failed")))
  /\ (forall e, daemon_answer env path = Raise e ->
      returns (scan_for_malware env path) (false, "Scan error: " ++ str e)).
Proof.
  split.
  - intros received Hans.
    rewrite (scan_for_malware_answered _ _ _ Hans).
    unfold parse_response.
    rewrite contains_OK_strip, contains_FOUND_strip.
    repeat split.
    + intros ->. reflexivity.
    + intros -> -> f0 f1 rest ->. reflexivity.
    + intros -> ->. reflexivity.
  - intros e Hans. unfold daemon_answer in Hans.
    unfold scan_for_malware. rewrite Hans. reflexivity.
Qed.

Lemma scan_response_classification_witness :
  returns (scan_for_malware (clamd_says "/srv/uploads/a.txt: Win.Test.EICAR_HDB-1 FOUND" sample_env)
                            "/srv/uploads/a.txt")
          (false, "Win.Test.EICAR_HDB-1 FOUND")
  /\ returns (scan_for_malware (clamd_says "stream: OK" sample_env) "/srv/uploads/a.txt")
             (true, "Clean")
  /\ returns (scan_for_malware (clamd_says "UNKNOWN COMMAND" sample_env) "/srv/uploads/a.txt")
             (false, "Scan failed")
  /\ returns (scan_for_malware
                (with_clamd (fun _ _ _ => Raise (Exception "timed out")) sample_env)
                "/srv/uploads/a.txt")
             (false, "Scan error: timed out").
Proof.
  split; [|split; [|split]].
  - apply (proj1 (proj2 (proj1 (scan_response_classification
             (clamd_says "/srv/uploads/a.txt: Win.Test.EICAR_HDB-1 FOUND" sample_env)
             "/srv/uploads/a.txt") _ eq_refl))
           eq_refl eq_refl "/srv/uploads/a.txt" " Win.Test.EICAR_HDB-1 FOUND" []).
    reflexivity.
  - apply (proj1 (proj1 (scan_response_classification
             (clamd_says "stream: OK" sample_env) "/srv/uploads/a.txt") _ eq_refl)).
    reflexivity.
  - apply (proj2 (proj2 (proj1 (scan_response_classification
             (clamd_says "UNKNOWN COMMAND" sample_env) "/srv/uploads/a.txt") _ eq_refl)));
      reflexivity.
  - apply (proj2 (scan_response_classification
             (with_clamd (fun _ _ _ => Raise (Exception "timed out")) sample_env)
             "/srv/uploads/a.txt") (Exception "timed out")).
    reflexivity.
Defined.

(** C3. The parser is to map an answer with FOUND to an infected result
    whose signature name is the name the daemon reports, so that
    ["stream: Eicar-Test-Signature FOUND"] yields ["Eicar-Test-Signature"].
    On that answer [scan_for_malware] returns not clean with the details
    ["Eicar-Test-Signature FOUND"]: what it stores in [virus_name] is the
    whole second colon-delimited field, the word FOUND included, and not
    the signature name. *)
Lemma eicar_details_keep_found :
  returns (scan_for_malware (clamd_says "stream: Eicar-Test-Signature FOUND" sample_env)
                            "/srv/uploads/eicar.txt")
          (false, "Eicar-Test-Signature FOUND")
  /\ ~ returns (scan_for_malware (clamd_says "stream: Eicar-Test-Signature FOUND" sample_env)
                                 "/srv/uploads/eicar.txt")
               (false, "Eicar-Test-Signature").
Proof.
  split; [reflexivity|]. unfold returns. vm_compute. discriminate.
Qed.

(** An answer with FOUND and no colon has no second field: the indexing
    raises and the handler of [scan_for_malware] reports a scan error. *)
Lemma found_without_colon (env : Env) (path received : string) :
  daemon_answer env path = Ok received ->
  PyStr.contains "OK" received = false ->
  PyStr.contains "FOUND" received = true ->
  PyStr.has_char ":" (PyStr.strip received) = false ->
  returns (scan_for_malware env path) (false, "Scan error: list index out of range").
Proof.
  intros Hans Hok Hfound Hcolon.
  rewrite (scan_for_malware_answered _ _ _ Hans).
  unfold parse_response.
  rewrite contains_OK_strip, contains_FOUND_strip, Hok, Hfound.
  destruct (PyStr.split ":" (PyStr.strip received)) as [|f0 [|f1 rest]] eqn:Es.
  - now apply split_nonempty in Es.
  - reflexivity.
  - assert (PyStr.has_char ":" (PyStr.strip received) = true) as Hc
      by (apply split_second_field; eauto).
    congruence.
Qed.

(** C10. For every text received from the daemon that contains both OK and
    FOUND, [scan_for_malware] returns clean with details "Clean": the test
    for OK comes first. *)
Theorem ok_takes_precedence_over_found (env : Env) (path received : string) :
  daemon_answer env path = Ok received ->
  PyStr.contains "OK" received = true ->
  PyStr.contains "FOUND" received = true ->
  returns (scan_for_malware env path) (true, "Clean").
Proof.
  intros Hans Hok _.
  rewrite (scan_for_malware_answered _ _ _ Hans).
  unfold parse_response. rewrite contains_OK_strip, Hok. reflexivity.
Qed.

Lemma ok_takes_precedence_over_found_witness :
  returns (scan_for_malware
             (clamd_says "/srv/uploads/a.exe: Win.Trojan.OKLoader-7 FOUND" sample_env)
             "/srv/uploads/a.exe")
          (true, "Clean").
Proof.
  apply (ok_takes_precedence_over_found
           (clamd_says "/srv/uploads/a.exe: Win.Trojan.OKLoader-7 FOUND" sample_env)
           "/srv/uploads/a.exe" "/srv/uploads/a.exe: Win.Trojan.OKLoader-7 FOUND");
    reflexivity.
Defined.

(* ===================================================================== *)
(** ** The image heuristic *)
(* ===================================================================== *)

(** [analyze_image_content] on an image that opens: the verdict is a
    function of the size, the log alone records transparency. *)
Lemma analyze_image_content_opened (env : Env) (path : string) (img : image) :
  Image_open env path = Ok img ->
  result (analyze_image_content env path)
  = Ok (let '(w, h) := img_size img in
        if (w <? 10) || (h <? 10) then (false, "Image too small")
        else if (w >? 10000) || (h >? 10000) then (false, "Image too large")
        else (true, "Image appears safe")).
Proof.
  intros Hopen. unfold analyze_image_content. rewrite Hopen.
  cbn -[Z.ltb Z.gtb str_in].
  destruct (img_size img) as [w h].
  destruct ((w <? 10) || (h <? 10)); [reflexivity|].
  destruct ((w >? 10000) || (h >? 10000)); [reflexivity|].
  destruct (str_in _ _ || str_in _ _); reflexivity.
Qed.

(** C5. For every image that opens with width [w] and height [h], the image
    heuristic returns unsafe with "Image too small" when [w < 10] or
    [h < 10]; otherwise unsafe with "Image too large" when [w > 10000] or
    [h > 10000]; otherwise safe.  So it is unsafe whenever a side is below
    10 or above 10000, 9 by 9 is too small, 10 by 10 is safe and 10001 by
    500 is too large.  When the image does not open, the heuristic returns
    unsafe with "Analysis error: " followed by the message of the
    exception. *)
Theorem image_dimension_bounds (env : Env) (path : string) :
  (forall img w h,
     Image_open env path = Ok img -> img_size img = (w, h) ->
     (w < 10 \/ h < 10 ->
      returns (analyze_image_content env path) (false, "Image too small"))
     /\ (10 <= w -> 10 <= h -> w > 10000 \/ h > 10000 ->
         returns (analyze_image_content env path) (false, "Image too large"))
     /\ (w < 10 \/ h < 10 \/ w > 10000 \/ h > 10000 ->
         exists reason, returns (analyze_image_content env path) (false, reason))
     /\ (10 <= w <= 10000 -> 10 <= h <= 10000 ->
         returns (analyze_image_content env path) (true, "Image appears safe"))
     /\ ((w, h) = (9, 9) ->
         returns (analyze_image_content env path) (false, "Image too small"))
     /\ ((w, h) = (10, 10) ->
         returns (analyze_image_content env path) (true, "Image appears safe"))
     /\ ((w, h) = (10001, 500) ->
         returns (analyze_image_content env path) (false, "Image too large")))
  /\ (forall e,
        Image_open env path = Raise e ->
        returns (analyze_image_content env path) (false, "Analysis error: " ++ str e)).
Proof.
  split.
  - intros img w h Hopen Hsize. unfold returns.
    rewrite (analyze_image_content_opened _ _ _ Hopen), Hsize.
    destruct (Z.ltb_spec w 10), (Z.ltb_spec h 10); cbn [orb];
      rewrite ?Z.gtb_ltb;
      destruct (Z.ltb_spec 10000 w), (Z.ltb_spec 10000 h); cbn [orb];
      repeat split; intros;
      try reflexivity; try lia; try (eexists; reflexivity);
      match goal with H : (_, _) = (_, _) |- _ => injection H as -> ->; lia end.
  - intros e Hopen. unfold returns, analyze_image_content.
    rewrite Hopen. reflexivity.
Qed.

Lemma image_dimension_bounds_witness :
  returns (analyze_image_content (image_is 9 9 "RGB" [] sample_env) "/srv/uploads/a.png")
          (false, "Image too small")
  /\ returns (analyze_image_content (image_is 10 10 "RGB" [] sample_env) "/srv/uploads/a.png")
             (true, "Image appears safe")
  /\ returns (analyze_image_content (image_is 10001 500 "RGB" [] sample_env) "/srv/uploads/a.png")
             (false, "Image too large")
  /\ returns (analyze_image_content
                (with_image (fun _ => Raise (Exception "cannot identify image file"))
                            sample_env) "/srv/uploads/a.png")
             (false, "Analysis error: cannot identify image file").
Proof.
  split; [|split; [|split]].
  - apply (proj1 (proj1 (image_dimension_bounds
             (image_is 9 9 "RGB" [] sample_env) "/srv/uploads/a.png")
             _ 9 9 eq_refl eq_refl)).
    left; lia.
  - apply (proj1 (proj2 (proj2 (proj2 (proj1 (image_dimension_bounds
             (image_is 10 10 "RGB" [] sample_env) "/srv/uploads/a.png")
             _ 10 10 eq_refl eq_refl))))); lia.
  - apply (proj1 (proj2 (proj1 (image_dimension_bounds
             (image_is 10001 500 "RGB" [] sample_env) "/srv/uploads/a.png")
             _ 10001 500 eq_refl eq_refl))); [lia | lia | left; lia].
  - apply (proj2 (image_dimension_bounds
             (with_image (fun _ => Raise (Exception "cannot identify image file"))
                         sample_env) "/srv/uploads/a.png")
             (Exception "cannot identify image file")).
    reflexivity.
Defined.

(** When a side is below 10 and another above 10000, the first test
    decides. *)
Example small_and_large_is_too_small :
  returns (analyze_image_content (image_is 5 20000 "RGB" [] sample_env) "/srv/uploads/a.png")
          (false, "Image too small").
Proof. reflexivity. Qed.

(** C6. For every two images that open with the same width and height, the
    image heuristic returns the same result, whatever their modes and their
    info keys: an alpha channel or a transparency entry changes nothing of
    the verdict. *)
Theorem transparency_does_not_change_verdict
    (env1 env2 : Env) (path1 path2 : string) (img1 img2 : image) :
  Image_open env1 path1 = Ok img1 ->
  Image_open env2 path2 = Ok img2 ->
  img_size img1 = img_size img2 ->
  result (analyze_image_content env1 path1) = result (analyze_image_content env2 path2).
Proof.
  intros H1 H2 Hsize.
  rewrite (analyze_image_content_opened _ _ _ H1).
  rewrite (analyze_image_content_opened _ _ _ H2).
  now rewrite Hsize.
Qed.

Lemma transparency_does_not_change_verdict_witness :
  result (analyze_image_content (image_is 640 480 "RGBA" ["transparency"] sample_env)
                                "/srv/uploads/a.png")
  = result (analyze_image_content (image_is 640 480 "RGB" [] sample_env)
                                  "/srv/uploads/b.png").
Proof.
  apply (transparency_does_not_change_verdict
           (image_is 640 480 "RGBA" ["transparency"] sample_env)
           (image_is 640 480 "RGB" [] sample_env)
           "/srv/uploads/a.png" "/srv/uploads/b.png"
           {| img_size := (640, 480); img_mode := "RGBA"; img_info := ["transparency"] |}
           {| img_size := (640, 480); img_mode := "RGB"; img_info := [] |});
    reflexivity.
Defined.

(** The transparency is seen: it is what the two runs log differently. *)
Example transparency_is_logged :
  written (analyze_image_content (image_is 640 480 "RGBA" [] sample_env) "/srv/uploads/a.png")
  = [(INFO, "Image contains transparency")]
  /\ written (analyze_image_content (image_is 640 480 "P" ["dpi"; "transparency"] sample_env)
                                    "/srv/uploads/a.png")
     = [(INFO, "Image contains transparency")]
  /\ written (analyze_image_content (image_is 640 480 "RGB" [] sample_env) "/srv/uploads/a.png")
     = [].
Proof. repeat split. Qed.

(* ===================================================================== *)
(** ** Type and size validation *)
(* ===================================================================== *)

Lemma allowed_category_none (ext mt : string) (items : list (string * list string)) :
  (forall category extensions,
     In (category, extensions) items ->
     str_in ext extensions = true ->
     _mime_matches_extension mt category = false) ->
  allowed_category ext mt items = None.
Proof.
  induction items as [|[category extensions] items IH]; intros H; [reflexivity|].
  cbn [allowed_category].
  destruct (str_in ext extensions) eqn:Ein.
  - rewrite (H category extensions (or_introl eq_refl) Ein).
    apply IH. intros c x Hin. apply H. now right.
  - apply IH. intros c x Hin. apply H. now right.
Qed.

Lemma allowed_category_some (ext mt category : string) (items : list (string * list string)) :
  allowed_category ext mt items = Some category ->
  exists extensions,
    In (category, extensions) items
    /\ str_in ext extensions = true
    /\ _mime_matches_extension mt category = true.
Proof.
  induction items as [|[c x] items IH]; intros H; [discriminate|].
  cbn [allowed_category] in H.
  destruct (str_in ext x) eqn:Ein.
  - destruct (_mime_matches_extension mt c) eqn:Em.
    + injection H as <-. exists x. repeat split; trivial. now left.
    + destruct (IH H) as (x' & Hin & Hx). exists x'. split; [now right | exact Hx].
  - destruct (IH H) as (x' & Hin & Hx). exists x'. split; [now right | exact Hx].
Qed.

(** [validate_file_type] once libmagic has named the content type. *)
Lemma validate_file_type_sniffed (env : Env) (path mt : string) :
  magic_from_file env path = Ok mt ->
  result (validate_file_type env path)
  = Ok match allowed_category (extension path) mt ALLOWED_EXTENSIONS with
       | Some category => (true, Some category, Some mt)
       | None => (false, None, Some mt)
       end.
Proof.
  intros Hm. unfold validate_file_type. rewrite Hm.
  cbn -[allowed_category ALLOWED_EXTENSIONS extension].
  destruct (allowed_category _ _ _); reflexivity.
Qed.

(** C7. For every file whose extension is jpg (in any letter case) and
    whose sniffed content type is application/x-executable, type validation
    returns invalid with no category, and the pipeline stops at the type
    check with the single error "Invalid file type".  In general, when the
    sniffed type starts with no configured prefix of any category that
    lists the extension, type validation returns invalid with no category;
    and whenever it returns valid, the extension is listed by the category
    returned and the sniffed type starts with one of that category's
    prefixes. *)
Theorem extension_alone_never_accepts (env : Env) (path : string) :
  (extension path = "jpg" ->
   magic_from_file env path = Ok "application/x-executable" ->
   returns (validate_file_type env path) (false, None, Some "application/x-executable")
   /\ exists r, comprehensive_scan env path = Ok r
                /\ file_type_valid r = false /\ file_category r = None
                /\ errors r = ["Invalid file type"] /\ overall_safe r = false)
  /\ (forall mt,
        magic_from_file env path = Ok mt ->
        (forall category extensions,
           In (category, extensions) ALLOWED_EXTENSIONS ->
           str_in (extension path) extensions = true ->
           _mime_matches_extension mt category = false) ->
        returns (validate_file_type env path) (false, None, Some mt))
  /\ (forall c m,
        returns (validate_file_type env path) (true, c, m) ->
        exists category extensions mt,
          c = Some category /\ m = Some mt
          /\ magic_from_file env path = Ok mt
          /\ In (category, extensions) ALLOWED_EXTENSIONS
          /\ str_in (extension path) extensions = true
          /\ _mime_matches_extension mt category = true).
Proof.
  split; [|split].
  - intros Hext Hmagic.
    assert (Hv : returns (validate_file_type env path)
                         (false, None, Some "application/x-executable")).
    { unfold returns. rewrite (validate_file_type_sniffed _ _ _ Hmagic), Hext.
      reflexivity. }
    split; [exact Hv|].
    scan_cases env path.
    apply (returns_inj _ _ _ _ Ht) in Hv. injection Hv as <- <- <-.
    unfold comprehensive_scan. rewrite Hrun. cbn [negb].
    eexists. repeat split.
  - intros mt Hmagic Hnone. unfold returns.
    rewrite (validate_file_type_sniffed _ _ _ Hmagic).
    now rewrite (allowed_category_none _ _ _ Hnone).
  - intros c m Hret. unfold returns in Hret.
    destruct (magic_from_file env path) as [mt|e] eqn:Hmagic.
    + rewrite (validate_file_type_sniffed _ _ _ Hmagic) in Hret.
      destruct (allowed_category _ _ _) as [category|] eqn:Ea; [|discriminate].
      injection Hret as <- <-.
      destruct (allowed_category_some _ _ _ _ Ea) as (x & Hin & Hx & Hm).
      exists category, x, mt. repeat split; trivial.
    + unfold validate_file_type in Hret. rewrite Hmagic in Hret. discriminate.
Qed.

Lemma extension_alone_never_accepts_witness :
  returns (validate_file_type
             (with_magic (fun _ => Ok "application/x-executable") sample_env)
             "/srv/uploads/holiday.JPG")
          (false, None, Some "application/x-executable")
  /\ exists r,
       comprehensive_scan (with_magic (fun _ => Ok "application/x-executable") sample_env)
                          "/srv/uploads/holiday.JPG" = Ok r
       /\ file_type_valid r = false /\ file_category r = None
       /\ errors r = ["Invalid file type"] /\ overall_safe r = false.
Proof.
  apply (proj1 (extension_alone_never_accepts
                  (with_magic (fun _ => Ok "application/x-executable") sample_env)
                  "/srv/uploads/holiday.JPG"));
    reflexivity.
Defined.

(** C8. For every file path and bound, size validation returns the pair of
    the test [size <= max_size] and the size when the size can be read, and
    the pair of false and 0 when reading the size raises.  The default bound
    is 10,485,760 bytes; a file of exactly the bound passes and a file of
    one byte more fails. *)
Theorem validate_file_size_spec (env : Env) (path : string) (max_size : Z) :
  MAX_FILE_SIZE = 10485760
  /\ (forall size, os_path_getsize env path = Ok size ->
      returns (validate_file_size env path max_size) (size <=? max_size, size))
  /\ (os_path_getsize env path = Ok max_size ->
      returns (validate_file_size env path max_size) (true, max_size))
  /\ (os_path_getsize env path = Ok (max_size + 1) ->
      returns (validate_file_size env path max_size) (false, max_size + 1))
  /\ (forall e, os_path_getsize env path = Raise e ->
      returns (validate_file_size env path max_size) (false, 0)).
Proof.
  unfold returns, validate_file_size.
  split; [reflexivity|]. split; [|split; [|split]].
  - intros size ->. reflexivity.
  - intros ->. cbn. now rewrite Z.leb_refl.
  - intros ->. cbn. now replace (max_size + 1 <=? max_size) with false by lia.
  - intros e ->. reflexivity.
Qed.

Lemma validate_file_size_spec_witness :
  returns (validate_file_size (with_getsize (fun _ => Ok 10485760) sample_env)
                              "/srv/uploads/a.png" MAX_FILE_SIZE)
          (true, 10485760)
  /\ returns (validate_file_size (with_getsize (fun _ => Ok 10485761) sample_env)
                                 "/srv/uploads/a.png" MAX_FILE_SIZE)
             (false, 10485761)
  /\ returns (validate_file_size
                (with_getsize (fun _ => Raise (Exception "No such file or directory"))
                              sample_env)
                "/srv/uploads/a.png" MAX_FILE_SIZE)
             (false, 0).
Proof.
  split; [|split].
  - apply (proj1 (proj2 (proj2 (validate_file_size_spec
             (with_getsize (fun _ => Ok 10485760) sample_env)
             "/srv/uploads/a.png" MAX_FILE_SIZE)))).
    reflexivity.
  - apply (proj1 (proj2 (proj2 (proj2 (validate_file_size_spec
             (with_getsize (fun _ => Ok 10485761) sample_env)
             "/srv/uploads/a.png" MAX_FILE_SIZE))))).
    reflexivity.
  - apply (proj2 (proj2 (proj2 (proj2 (validate_file_size_spec
             (with_getsize (fun _ => Raise (Exception "No such file or directory"))
                           sample_env)
             "/srv/uploads/a.png" MAX_FILE_SIZE))))
           (Exception "No such file or directory")).
    reflexivity.
Defined.

(* ===================================================================== *)
(** ** Hashing *)
(* ===================================================================== *)

Lemma hash_chunks_read_fault (f : list (outcome (list byte))) (e : exc) (fed : list byte) :
  read_fault f e -> hash_chunks fed f = Raise e.
Proof.
  intros (chunks & rest & Hne & ->). revert fed.
  induction Hne as [|chunk chunks Hchunk _ IH]; intros fed; [reflexivity|].
  destruct chunk as [|b chunk]; [contradiction|].
  cbn [map app hash_chunks]. apply IH.
Qed.

Lemma generate_file_hash_faulted (env : Env) (path : string) (e : exc) :
  hashing_faults env path e ->
  generate_file_hash env path
  = ([(ERROR, "Error generating file hash: " ++ str e)], Ok None).
Proof.
  unfold generate_file_hash. intros [Hopen | (f & Hopen & Hread)]; rewrite Hopen.
  - reflexivity.
  - cbn. now rewrite (hash_chunks_read_fault _ _ _ Hread).
Qed.

(** C9. In every run in which hashing meets an I/O fault, on opening the
    file or on a read, [generate_file_hash] returns [None] and the report
    has no hash; and the run is the one the pipeline makes when hashing
    behaves in any other way, a success included, up to the hash: the [try]
    block is left the same way, the stages after hashing write the same log
    records, and the report is the same with its hash set to [None], so the
    same stages ran with the same results and no error entry was added. *)
Theorem hash_failure_does_not_abort (env : Env) (path : string) (e : exc) :
  hashing_faults env path e ->
  returns (generate_file_hash env path) None
  /\ forall open', exists r r',
       comprehensive_scan env path = Ok r
       /\ comprehensive_scan (with_open_rb open' env) path = Ok r'
       /\ file_hash r = None
       /\ r = set_file_hash None r'
       /\ errors r = errors r'
       /\ snd (comprehensive_scan_run env path)
          = snd (comprehensive_scan_run (with_open_rb open' env) path)
       /\ exists later,
            fst (fst (comprehensive_scan_run env path))
            = (written (generate_file_hash env path) ++ later)%list
            /\ fst (fst (comprehensive_scan_run (with_open_rb open' env) path))
               = (written (generate_file_hash (with_open_rb open' env) path) ++ later)%list.
Proof.
  intros Hfault.
  pose proof (generate_file_hash_faulted _ _ _ Hfault) as Hh0.
  split; [now apply returns_intro in Hh0|].
  intros open'.
  scan_cases env path.
  rewrite Hh0 in Hh. injection Hh as <- <-.
  destruct (generate_file_hash_total (with_open_rb open' env) path) as (lh' & h' & Hh').
  pose proof (comprehensive_scan_try_eq (with_open_rb open' env) path
                _ _ _ _ _ _ _ _ _ _ _ _ _ _ _ Hh' Ht Hs Hm Hc) as Hrun'.
  rewrite <- comprehensive_scan_run_try in Hrun'. cbv zeta in Hrun'.
  unfold comprehensive_scan. rewrite Hrun, Hrun', Hh0, Hh'.
  unfold written. cbn [fst].
  destruct tv, sv, mc, (is_image c), cs; cbn [negb];
    do 2 eexists; (repeat split); eexists; split; reflexivity.
Qed.

Lemma hash_failure_does_not_abort_witness :
  returns (generate_file_hash failing_read_env "/srv/uploads/photo.png") None
  /\ forall open', exists r r',
       comprehensive_scan failing_read_env "/srv/uploads/photo.png" = Ok r
       /\ comprehensive_scan (with_open_rb open' failing_read_env) "/srv/uploads/photo.png"
          = Ok r'
       /\ file_hash r = None
       /\ r = set_file_hash None r'
       /\ errors r = errors r'
       /\ snd (comprehensive_scan_run failing_read_env "/srv/uploads/photo.png")
          = snd (comprehensive_scan_run (with_open_rb open' failing_read_env)
                                        "/srv/uploads/photo.png")
       /\ exists later,
            fst (fst (comprehensive_scan_run failing_read_env "/srv/uploads/photo.png"))
            = (written (generate_file_hash failing_read_env "/srv/uploads/photo.png")
               ++ later)%list
            /\ fst (fst (comprehensive_scan_run (with_open_rb open' failing_read_env)
                                                "/srv/uploads/photo.png"))
               = (written (generate_file_hash (with_open_rb open' failing_read_env)
                                              "/srv/uploads/photo.png") ++ later)%list.
Proof.
  apply (hash_failure_does_not_abort failing_read_env "/srv/uploads/photo.png"
                                     (Exception "Input/output error")).
  right. exists [Ok [x89; x50]; Raise (Exception "Input/output error")].
  split; [reflexivity|].
  exists [[x89; x50]], []. split; [|reflexivity].
  constructor; [discriminate | constructor].
Defined.

(** The run of the sample file when its hashing fails on opening: all
    stages run, the file is accepted, and only the hash is missing. *)
Example scan_without_hash :
  comprehensive_scan
    (with_open_rb (fun _ => Raise (Exception "Permission denied")) sample_env)
    "/srv/uploads/photo.PNG"
  = Ok {| file_path := "/srv/uploads/photo.PNG";
          timestamp := "2024-01-01T00:00:00";
          file_hash := None;
          file_size := 1024;
          file_type_valid := true;
          file_category := Some "image";
          mime_type := Some "image/png";
          size_valid := true;
          malware_scan := {| clean := true; malware_details := "Clean" |};
          content_analysis := {| safe := true; content_details := "Image appears safe" |};
          overall_safe := true;
          errors := [] |}.
Proof. vm_compute. reflexivity. Qed.

(* ===================================================================== *)
(** ** More on hashing *)
(* ===================================================================== *)

(** The loop feeds the chunks in order and stops at the first empty read
    or at the end of the reads. *)
Lemma hash_chunks_content (fed : list byte) (chunks : list (list byte))
    (rest : list (outcome (list byte))) :
  Forall (fun chunk => chunk <> []) chunks ->
  rest = [] \/ (exists rest', rest = Ok [] :: rest') ->
  hash_chunks fed (map Ok chunks ++ rest) = Ok (fed ++ List.concat chunks)%list.
Proof.
  intros Hne Hrest. revert fed.
  induction Hne as [|chunk chunks Hchunk _ IH]; intros fed.
  - cbn [map app List.concat]. rewrite app_nil_r.
    destruct Hrest as [-> | (rest' & ->)]; reflexivity.
  - destruct chunk as [|b chunk]; [contradiction|].
    cbn [map app hash_chunks List.concat]. rewrite IH. now rewrite <- app_assoc.
Qed.

(** A loop that raises met a read fault. *)
Lemma hash_chunks_raise (f : list (outcome (list byte))) (e : exc) (fed : list byte) :
  hash_chunks fed f = Raise e -> read_fault f e.
Proof.
  revert fed; induction f as [|[chunk|e'] f IH]; intros fed H; cbn in H.
  - discriminate.
  - destruct chunk as [|b chunk]; [discriminate|].
    destruct (IH _ H) as (chunks & rest & Hne & ->).
    exists ((b :: chunk) :: chunks), rest. split; [|reflexivity].
    constructor; [discriminate | exact Hne].
  - injection H as ->. exists [], f. split; [constructor | reflexivity].
Qed.

Lemma generate_file_hash_none (env : Env) (path : string) :
  returns (generate_file_hash env path) None <-> exists e, hashing_faults env path e.
Proof.
  split.
  - unfold returns, generate_file_hash, hashing_faults. intros H.
    destruct (open_rb env path) as [f|e] eqn:Hopen; [|now exists e; left].
    cbn in H. destruct (hash_chunks [] f) as [fed|e] eqn:Hloop; [discriminate|].
    exists e. right. exists f. split; [reflexivity|]. now apply hash_chunks_raise in Hloop.
  - intros (e & He). rewrite (generate_file_hash_faulted _ _ _ He). reflexivity.
Qed.

(** X1. When the file opens and its reads give non-empty chunks up to the
    end of the file, [generate_file_hash] returns the hex digest of the
    chunks joined in order: the boundaries between the chunks do not
    matter, and nothing that would follow the first empty read is read. *)
Theorem hash_is_digest_of_content (env : Env) (path : string)
    (chunks : list (list byte)) (rest : list (outcome (list byte))) :
  Forall (fun chunk => chunk <> []) chunks ->
  open_rb env path = Ok (map Ok chunks ++ rest)%list ->
  rest = [] \/ (exists rest', rest = Ok [] :: rest') ->
  returns (generate_file_hash env path) (Some (sha256_hexdigest env (List.concat chunks)))
  /\ written (generate_file_hash env path) = [].
Proof.
  intros Hne Hopen Hrest. unfold returns, written, generate_file_hash.
  rewrite Hopen. cbn -[hash_chunks].
  rewrite (hash_chunks_content [] chunks rest Hne Hrest). split; reflexivity.
Qed.

Lemma hash_is_digest_of_content_witness :
  returns (generate_file_hash
             (with_open_rb (fun _ => Ok [Ok [x89; x50]; Ok [x4e]; Ok [];
                                         Raise (Exception "Input/output error")])
                           sample_env) "/srv/uploads/photo.png")
          (Some (sha256_hexdigest sample_env [x89; x50; x4e]))
  /\ written (generate_file_hash
                (with_open_rb (fun _ => Ok [Ok [x89; x50]; Ok [x4e]; Ok [];
                                            Raise (Exception "Input/output error")])
                              sample_env) "/srv/uploads/photo.png") = [].
Proof.
  apply (hash_is_digest_of_content
           (with_open_rb (fun _ => Ok [Ok [x89; x50]; Ok [x4e]; Ok [];
                                       Raise (Exception "Input/output error")])
                         sample_env)
           "/srv/uploads/photo.png" [[x89; x50]; [x4e]]
           [Ok []; Raise (Exception "Input/output error")]).
  - repeat constructor; discriminate.
  - reflexivity.
  - right. now exists [Raise (Exception "Input/output error")].
Defined.

(** X2. The report of every run carries what [generate_file_hash] returned,
    whether the file was accepted or rejected, and its hash is [None]
    exactly when opening the file or one of its reads raised. *)
Theorem report_hash_none_iff_fault (env : Env) (path : string) :
  exists r,
    comprehensive_scan env path = Ok r
    /\ returns (generate_file_hash env path) (file_hash r)
    /\ (file_hash r = None <-> exists e, hashing_faults env path e).
Proof.
  scan_cases env path.
  unfold comprehensive_scan. rewrite Hrun.
  pose proof (returns_intro _ _ _ Hh) as Hret.
  assert (Hiff : h = None <-> returns (generate_file_hash env path) None).
  { split; [now intros <- | intros H; now apply (returns_inj _ _ _ _ Hh) in H]. }
  destruct tv, sv, mc, (is_image c), cs; cbn [negb];
    eexists; (split; [reflexivity|]); cbn;
    (split; [assumption | rewrite <- generate_file_hash_none; assumption]).
Qed.

(* ===================================================================== *)
(** ** More on type validation *)
(* ===================================================================== *)

Lemma str_in_In (x : string) (xs : list string) : str_in x xs = true <-> In x xs.
Proof.
  unfold str_in. rewrite existsb_exists. split.
  - intros (y & Hy & Heq). apply String.eqb_eq in Heq. now subst.
  - intros H. exists x. split; [exact H | apply String.eqb_refl].
Qed.

(** No extension is listed by two categories. *)
Lemma extension_category_unique (ext c1 c2 : string) (x1 x2 : list string) :
  In (c1, x1) ALLOWED_EXTENSIONS -> In (c2, x2) ALLOWED_EXTENSIONS ->
  str_in ext x1 = true -> str_in ext x2 = true -> c1 = c2.
Proof.
  intros H1 H2 S1 S2. cbn in H1, H2.
  destruct H1 as [H1|[H1|[H1|[]]]]; destruct H2 as [H2|[H2|[H2|[]]]];
    injection H1 as <- <-; injection H2 as <- <-; try reflexivity;
    apply str_in_In in S1; cbn in S1;
    repeat (destruct S1 as [<-|S1]; [vm_compute in S2; discriminate|]);
    contradiction.
Qed.

(** The loop returns from the category that lists the extension and matches
    the sniffed type when no other category lists the extension. *)
Lemma allowed_category_first (ext mt c : string) (exts : list string)
    (items : list (string * list string)) :
  In (c, exts) items -> str_in ext exts = true ->
  _mime_matches_extension mt c = true ->
  (forall c' x', In (c', x') items -> str_in ext x' = true -> c' = c) ->
  allowed_category ext mt items = Some c.
Proof.
  intros Hin Hext Hm Huniq.
  induction items as [|[c0 x0] items IH]; [contradiction|].
  cbn [allowed_category].
  destruct (str_in ext x0) eqn:E0.
  - rewrite (Huniq c0 x0 (or_introl eq_refl) E0), Hm. reflexivity.
  - destruct Hin as [Hhd|Htl]; [injection Hhd as -> ->; congruence|].
    apply IH; [exact Htl|]. intros c' x' Hin'. apply Huniq. now right.
Qed.

(** X3. When libmagic names a type that starts with a configured prefix of
    a category that lists the extension of the path, type validation
    accepts the file with that category and that type; and no other
    category lists the extension, so the extension alone determines the
    category a file can be accepted in. *)
Theorem matching_type_is_accepted (env : Env) (path mt category : string)
    (extensions : list string) :
  magic_from_file env path = Ok mt ->
  In (category, extensions) ALLOWED_EXTENSIONS ->
  str_in (extension path) extensions = true ->
  _mime_matches_extension mt category = true ->
  returns (validate_file_type env path) (true, Some category, Some mt)
  /\ (forall category' extensions',
        In (category', extensions') ALLOWED_EXTENSIONS ->
        str_in (extension path) extensions' = true ->
        category' = category).
Proof.
  intros Hmagic Hin Hext Hm.
  assert (Huniq : forall c' x', In (c', x') ALLOWED_EXTENSIONS ->
                                str_in (extension path) x' = true -> c' = category).
  { intros c' x' Hin' Hext'. exact (extension_category_unique _ _ _ _ _ Hin' Hin Hext' Hext). }
  split; [|exact Huniq].
  unfold returns. rewrite (validate_file_type_sniffed _ _ _ Hmagic).
  now rewrite (allowed_category_first _ _ _ _ _ Hin Hext Hm Huniq).
Qed.

Lemma matching_type_is_accepted_witness :
  returns (validate_file_type (with_magic (fun _ => Ok "text/html") sample_env)
                              "/srv/uploads/notes.PDF")
          (true, Some "document", Some "text/html")
  /\ (forall category' extensions',
        In (category', extensions') ALLOWED_EXTENSIONS ->
        str_in (extension "/srv/uploads/notes.PDF") extensions' = true ->
        category' = "document").
Proof.
  apply (matching_type_is_accepted (with_magic (fun _ => Ok "text/html") sample_env)
           "/srv/uploads/notes.PDF" "text/html" "document"
           ["pdf"; "doc"; "docx"; "txt"; "rtf"; "odt"]).
  - reflexivity.
  - right; right; left; reflexivity.
  - reflexivity.
  - reflexivity.
Defined.

(** [validate_file_type] when libmagic raises. *)
Lemma validate_file_type_unsniffed (env : Env) (path : string) (e : exc) :
  magic_from_file env path = Raise e ->
  validate_file_type env path
  = ([(ERROR, "Error validating file type: " ++ str e)], Ok (false, None, None)).
Proof. intros H. unfold validate_file_type. now rewrite H. Qed.

(** X4. The report of every run has no MIME type exactly when libmagic
    raised on the file; the run then stops at the type check: the file is
    rejected with the single error "Invalid file type" and no category,
    whatever its extension, and its size is not read. *)
Theorem report_mime_none_iff_magic_raised (env : Env) (path : string) :
  exists r,
    comprehensive_scan env path = Ok r
    /\ (mime_type r = None <-> exists e, magic_from_file env path = Raise e)
    /\ (mime_type r = None ->
        file_type_valid r = false /\ file_category r = None
        /\ errors r = ["Invalid file type"]
        /\ size_valid r = false /\ file_size r = 0 /\ overall_safe r = false).
Proof.
  scan_cases env path.
  unfold comprehensive_scan. rewrite Hrun.
  destruct (magic_from_file env path) as [mt|e] eqn:Hmagic.
  - pose proof (validate_file_type_sniffed _ _ _ Hmagic) as Hv.
    unfold result in Hv. rewrite Ht in Hv. cbn [snd] in Hv.
    assert (Hmt : m = Some mt)
      by (destruct (allowed_category _ _ _); injection Hv as _ _ ->; reflexivity).
    subst m.
    destruct tv, sv, mc, (is_image c), cs; cbn [negb];
      eexists; (split; [reflexivity|]); cbn;
      (split; [split; [discriminate | intros (e & He); discriminate] | discriminate]).
  - rewrite (validate_file_type_unsniffed _ _ _ Hmagic) in Ht.
    injection Ht as <- <- <- <-. cbn [negb].
    eexists; (split; [reflexivity|]); cbn.
    split; [split; [intros _; now exists e | reflexivity] | intros _; repeat split].
Qed.

(* ===================================================================== *)
(** ** The extension of a path *)
(* ===================================================================== *)

Lemma str_app_assoc (a b c : string) : (a ++ b) ++ c = a ++ b ++ c.
Proof. induction a as [|x a IH]; simpl; [reflexivity | now rewrite IH]. Qed.

Lemma has_char_app (c : ascii) (a b : string) :
  PyStr.has_char c (a ++ b) = PyStr.has_char c a || PyStr.has_char c b.
Proof.
  induction a as [|x a IH]; simpl; [reflexivity|].
  now rewrite IH, orb_assoc.
Qed.

Lemma rfind_from_none (c : ascii) (s : string) (i : nat) :
  PyStr.has_char c s = false -> PyStr.rfind_from c s i = None.
Proof.
  revert i; induction s as [|a s IH]; intros i H; [reflexivity|].
  simpl in H. apply orb_false_iff in H as [Ha Hs].
  simpl. now rewrite (IH _ Hs), Ha.
Qed.

(** The last occurrence is the one nothing follows. *)
Lemma rfind_from_last (c : ascii) (a b : string) (i : nat) :
  PyStr.has_char c b = false ->
  PyStr.rfind_from c (a ++ String c b) i = Some (i + String.length a)%nat.
Proof.
  intros Hb. revert i; induction a as [|x a IH]; intros i; simpl.
  - rewrite (rfind_from_none _ _ _ Hb), Ascii.eqb_refl. f_equal. lia.
  - rewrite IH. f_equal. lia.
Qed.

Lemma slice_from_app (a b : string) : PyStr.slice_from (String.length a) (a ++ b) = b.
Proof. induction a as [|x a IH]; simpl; [now destruct b | exact IH]. Qed.

Lemma slice_to_app (a b : string) : PyStr.slice_to (String.length a) (a ++ b) = a.
Proof. induction a as [|x a IH]; simpl; [reflexivity | now rewrite IH]. Qed.

Lemma str_length_app (a b : string) :
  String.length (a ++ b) = (String.length a + String.length b)%nat.
Proof. induction a as [|x a IH]; simpl; [reflexivity | now rewrite IH]. Qed.

(** [lower] neither makes nor removes a dot. *)
Lemma lower_char_dot (c : ascii) : Ascii.eqb (PyStr.lower_char c) "." = Ascii.eqb c ".".
Proof. destruct c as [[] [] [] [] [] [] [] []]; reflexivity. Qed.

Lemma has_char_dot_lower (s : string) :
  PyStr.has_char "." (PyStr.lower s) = PyStr.has_char "." s.
Proof.
  induction s as [|c s IH]; simpl; [reflexivity|].
  now rewrite lower_char_dot, IH.
Qed.

Lemma lstrip_dot_no_dot (s : string) :
  PyStr.has_char "." s = false -> PyStr.lstrip_dot s = s.
Proof.
  destruct s as [|c s]; [reflexivity|]. cbn [PyStr.has_char]. intros H.
  apply orb_false_iff in H as [Hc _].
  unfold PyStr.lstrip_dot. cbn [PyStr.lstrip_by]. now rewrite Ascii.eqb_sym, Hc.
Qed.

(** X5. For a path made of a directory part (empty or ending in a slash), a
    file name [base] without slash, a dot, and a suffix [e] without dot or
    slash, the extension that type validation looks up is [e] in lower
    case when [base] has a character other than a dot, and is empty when
    [base] is empty or all dots: only the last suffix counts, its letter
    case does not, and a name such as [.jpg] has no extension. *)
Theorem extension_is_last_suffix (dir base e : string) :
  dir = "" \/ (exists d, dir = d ++ "/") ->
  PyStr.has_char "/" base = false ->
  PyStr.has_char "/" e = false ->
  PyStr.has_char "." e = false ->
  extension (dir ++ base ++ "." ++ e)
  = if not_only_dots base then PyStr.lower e else "".
Proof.
  intros Hdir Hbase He Hdot.
  assert (Hd : PyStr.rfind "." (dir ++ base ++ "." ++ e)
               = Some (String.length dir + String.length base)%nat).
  { unfold PyStr.rfind. rewrite <- str_app_assoc.
    change ((dir ++ base) ++ "." ++ e) with ((dir ++ base) ++ String "." e).
    rewrite (rfind_from_last _ _ _ _ Hdot), str_length_app. reflexivity. }
  assert (Htail : PyStr.has_char "/" (base ++ "." ++ e) = false).
  { rewrite has_char_app, Hbase. simpl. exact He. }
  assert (Hs : (dir = "" /\ PyStr.rfind "/" (dir ++ base ++ "." ++ e) = None)
               \/ (exists d, dir = d ++ "/"
                   /\ PyStr.rfind "/" (dir ++ base ++ "." ++ e) = Some (String.length d))).
  { destruct Hdir as [-> | (d & ->)].
    - left. split; [reflexivity|]. apply rfind_from_none. exact Htail.
    - right. exists d. split; [reflexivity|]. unfold PyStr.rfind.
      rewrite str_app_assoc.
      change ("/" ++ base ++ "." ++ e) with (String "/" (base ++ "." ++ e)).
      now rewrite (rfind_from_last _ _ _ _ Htail). }
  assert (Hname : PyStr.slice_to (String.length base)
                    (PyStr.slice_from (String.length dir) (dir ++ base ++ "." ++ e))
                  = base)
    by now rewrite slice_from_app, slice_to_app.
  assert (Hext : PyStr.slice_from (String.length dir + String.length base)
                   (dir ++ base ++ "." ++ e) = String "." e).
  { rewrite <- str_app_assoc, <- str_length_app. apply slice_from_app. }
  unfold extension, PyStr.splitext. rewrite Hd.
  destruct Hs as [[Hnil Hsep] | (d & Hcons & Hsep)]; rewrite Hsep.
  - assert (Hlen : String.length dir = 0%nat) by now subst dir.
    rewrite Hlen in *. cbn [Nat.add] in *. rewrite Nat.sub_0_r, Hname.
    fold (not_only_dots base). destruct (not_only_dots base); [|reflexivity].
    rewrite Hext. cbn [PyStr.lower]. unfold PyStr.lstrip_dot.
    cbn [PyStr.lstrip_by PyStr.lower_char]. 
    change (PyStr.lstrip_by (Ascii.eqb ".") (PyStr.lower e))
      with (PyStr.lstrip_dot (PyStr.lower e)).
    apply lstrip_dot_no_dot. now rewrite has_char_dot_lower.
  - assert (Hlen : String.length dir = S (String.length d))
      by (subst dir; rewrite str_length_app; simpl; lia).
    replace (String.length d <? String.length dir + String.length base)%nat with true
      by (symmetry; apply Nat.ltb_lt; lia).
    rewrite <- Hlen.
    replace (String.length dir + String.length base - String.length dir)%nat
      with (String.length base) by lia.
    rewrite Hname.
    fold (not_only_dots base). destruct (not_only_dots base); [|reflexivity].
    rewrite Hext. cbn [PyStr.lower]. unfold PyStr.lstrip_dot.
    cbn [PyStr.lstrip_by PyStr.lower_char].
    change (PyStr.lstrip_by (Ascii.eqb ".") (PyStr.lower e))
      with (PyStr.lstrip_dot (PyStr.lower e)).
    apply lstrip_dot_no_dot. now rewrite has_char_dot_lower.
Qed.

Lemma extension_is_last_suffix_witness :
  extension "/srv/uploads/shell.php.JPG" = "jpg".
Proof.
  exact (extension_is_last_suffix "/srv/uploads/" "shell.php" "JPG"
           (or_intror (ex_intro _ "/srv/uploads" eq_refl)) eq_refl eq_refl eq_refl).
Defined.

Example extension_of_dot_name : extension "/srv/uploads/.jpg" = "".
Proof. reflexivity. Qed.

(* ===================================================================== *)
(** ** More on the malware scan *)
(* ===================================================================== *)

(** X6. [scan_for_malware] reports a file as clean only with the details
    "Clean", and exactly when the daemon answered and its answer contains
    OK: a failed exchange, an answer without OK and an answer that cannot
    be parsed never count as clean. *)
Theorem clean_iff_daemon_answers_ok (env : Env) (path d : string) :
  returns (scan_for_malware env path) (true, d)
  <-> d = "Clean"
      /\ exists received,
           daemon_answer env path = Ok received
           /\ PyStr.contains "OK" received = true.
Proof.
  split.
  - intros H. destruct (daemon_answer env path) as [received|e] eqn:Hans.
    + rewrite (scan_for_malware_answered _ _ _ Hans) in H.
      unfold parse_response in H.
      rewrite contains_OK_strip, contains_FOUND_strip in H.
      destruct (PyStr.contains "OK" received) eqn:Hok.
      * unfold returns in H. cbn in H. injection H as <-.
        split; [reflexivity|]. now exists received.
      * destruct (PyStr.contains "FOUND" received).
        -- destruct (list_index (PyStr.split ":" (PyStr.strip received)) 1);
             unfold returns in H; cbn -[PyStr.strip] in H; discriminate.
        -- discriminate.
    + unfold daemon_answer in Hans. unfold returns, scan_for_malware in H.
      rewrite Hans in H. discriminate.
  - intros (-> & received & Hans & Hok).
    rewrite (scan_for_malware_answered _ _ _ Hans).
    unfold parse_response. rewrite contains_OK_strip, Hok. reflexivity.
Qed.

(** [needle in s] passes from a part of a text to the text. *)
Lemma contains_trans (a b c : string) :
  PyStr.contains a b = true -> PyStr.contains b c = true -> PyStr.contains a c = true.
Proof.
  rewrite !contains_spec. intros (x & y & ->) (u & v & ->).
  exists (u ++ x), (y ++ v). now rewrite !str_app_assoc.
Qed.

(** X7. When the path of the scanned file contains OK and the daemon's
    answer repeats the path, as an answer of the form [path: name FOUND]
    does, [scan_for_malware] reports the file as clean whatever else the
    answer says. *)
Theorem ok_in_path_reads_as_clean (env : Env) (path received : string) :
  daemon_answer env path = Ok received ->
  PyStr.contains path received = true ->
  PyStr.contains "OK" path = true ->
  returns (scan_for_malware env path) (true, "Clean").
Proof.
  intros Hans Hecho Hok.
  rewrite (scan_for_malware_answered _ _ _ Hans).
  unfold parse_response.
  now rewrite contains_OK_strip, (contains_trans _ _ _ Hok Hecho).
Qed.

Lemma ok_in_path_reads_as_clean_witness :
  returns (scan_for_malware
             (clamd_says "/tmp/BOOK.pdf: Eicar-Test-Signature FOUND" sample_env)
             "/tmp/BOOK.pdf")
          (true, "Clean").
Proof.
  apply (ok_in_path_reads_as_clean
           (clamd_says "/tmp/BOOK.pdf: Eicar-Test-Signature FOUND" sample_env)
           "/tmp/BOOK.pdf" "/tmp/BOOK.pdf: Eicar-Test-Signature FOUND");
    reflexivity.
Defined.

(* ===================================================================== *)
(** ** Invariants of the report *)
(* ===================================================================== *)

(** Type validation names a category exactly when it accepts. *)
Lemma validate_file_type_shape (env : Env) (path : string) (l : list log_record)
    (tv : bool) (c m : option string) :
  validate_file_type env path = (l, Ok (tv, c, m)) ->
  (tv = true /\ exists category, c = Some category) \/ (tv = false /\ c = None).
Proof.
  intros H. destruct (magic_from_file env path) as [mt|e] eqn:Hmagic.
  - pose proof (validate_file_type_sniffed _ _ _ Hmagic) as Hv.
    unfold result in Hv. rewrite H in Hv. cbn [snd] in Hv.
    destruct (allowed_category _ _ _) as [category|]; injection Hv as -> -> ->.
    + left. split; [reflexivity | now exists category].
    + now right.
  - rewrite (validate_file_type_unsniffed _ _ _ Hmagic) in H.
    injection H as _ <- <- _. now right.
Qed.

(** Size validation passes only a size within the bound. *)
Lemma validate_file_size_bound (env : Env) (path : string) (max_size : Z)
    (l : list log_record) (n : Z) :
  validate_file_size env path max_size = (l, Ok (true, n)) ->
  os_path_getsize env path = Ok n /\ n <= max_size.
Proof.
  unfold validate_file_size.
  destruct (os_path_getsize env path) as [size|e]; cbn; intros H.
  - injection H as _ Hle ->. split; [reflexivity | lia].
  - discriminate.
Qed.

(** X8. The report of every run has at most one error entry, written by
    one of the four stages, and it has none exactly when [overall_safe] is
    true. *)
Theorem errors_empty_iff_safe (env : Env) (path : string) :
  exists r,
    comprehensive_scan env path = Ok r
    /\ (overall_safe r = true <-> errors r = [])
    /\ (List.length (errors r) <= 1)%nat
    /\ Forall stage_error (errors r).
Proof.
  scan_cases env path.
  unfold comprehensive_scan. rewrite Hrun.
  destruct tv, sv, mc, (is_image c), cs; cbn [negb];
    eexists; (split; [reflexivity|]); cbn;
    (split; [split; [reflexivity || discriminate | reflexivity || discriminate]|]);
    (split; [lia|]);
    first [ apply Forall_nil
          | apply Forall_cons; [unfold stage_error | apply Forall_nil];
            first [ left; reflexivity
                  | right; left; reflexivity
                  | right; right; left; eexists; reflexivity
                  | right; right; right; eexists; reflexivity ] ].
Qed.

(** X9. In the report of every run the flags form a chain: a safe content
    analysis implies a clean malware scan, which implies a valid size,
    which implies a valid type.  The category is set exactly when the type
    is valid, a valid size is at most [MAX_FILE_SIZE], and the report names
    the path that was scanned. *)
Theorem report_flags_chain (env : Env) (path : string) :
  exists r,
    comprehensive_scan env path = Ok r
    /\ (safe (content_analysis r) = true -> clean (malware_scan r) = true)
    /\ (clean (malware_scan r) = true -> size_valid r = true)
    /\ (size_valid r = true -> file_type_valid r = true)
    /\ (file_type_valid r = true <-> exists category, file_category r = Some category)
    /\ (size_valid r = true -> file_size r <= MAX_FILE_SIZE)
    /\ file_path r = path.
Proof.
  scan_cases env path.
  unfold comprehensive_scan. rewrite Hrun.
  pose proof (validate_file_type_shape _ _ _ _ _ _ Ht) as Hshape.
  assert (Hsize : sv = true -> n <= MAX_FILE_SIZE).
  { intros ->. now apply validate_file_size_bound in Hs. }
  assert (Hcat : tv = true <-> exists category, c = Some category).
  { destruct Hshape as [[-> Hc'] | [-> ->]].
    - now split.
    - split; [discriminate | intros (category & Hcat); discriminate]. }
  destruct tv, sv, mc, (is_image c), cs; cbn [negb];
    eexists; (split; [reflexivity|]); cbn;
    repeat split; intros; try assumption; try discriminate; try reflexivity;
    try (now apply Hcat); try (now apply Hsize).
Qed.

(* ===================================================================== *)
(** ** What a rejected file does not reach *)
(* ===================================================================== *)

(** X10. When the type check or the size check rejects a file, the run of
    [comprehensive_scan] (its log, its report and the way it ends) is the
    same whatever the daemon would do: the daemon is not asked about a
    file that was already rejected. *)
Theorem daemon_not_asked_after_rejection (env : Env) (path : string)
    (f : string -> Z -> string -> outcome string) :
  (exists c m, returns (validate_file_type env path) (false, c, m))
  \/ (exists n, returns (validate_file_size env path MAX_FILE_SIZE) (false, n)) ->
  comprehensive_scan_run (with_clamd f env) path = comprehensive_scan_run env path.
Proof.
  intros Hrej. scan_cases env path.
  destruct (scan_for_malware_total (with_clamd f env) path) as (lm' & [mc' d'] & Hm').
  pose proof (comprehensive_scan_try_eq (with_clamd f env) path
                _ _ _ _ _ _ _ _ _ _ _ _ _ _ _ Hh Ht Hs Hm' Hc) as Hrun'.
  rewrite <- comprehensive_scan_run_try in Hrun'. cbv zeta in Hrun'.
  rewrite Hrun, Hrun'.
  destruct Hrej as [(c' & m' & H) | (n' & H)].
  - apply (returns_inj _ _ _ _ Ht) in H. injection H as <- _ _. reflexivity.
  - apply (returns_inj _ _ _ _ Hs) in H. injection H as <- _.
    destruct tv; reflexivity.
Qed.

Lemma daemon_not_asked_after_rejection_witness :
  comprehensive_scan_run
    (with_clamd (fun _ _ _ => Raise (Exception "Connection refused"))
                (with_getsize (fun _ => Ok 10485761) sample_env))
    "/srv/uploads/big.png"
  = comprehensive_scan_run (with_getsize (fun _ => Ok 10485761) sample_env)
                           "/srv/uploads/big.png".
Proof.
  apply (daemon_not_asked_after_rejection
           (with_getsize (fun _ => Ok 10485761) sample_env) "/srv/uploads/big.png"
           (fun _ _ _ => Raise (Exception "Connection refused"))).
  right. exists 10485761. reflexivity.
Defined.

(** X11. Pillow is asked only about an image that passed the type check,
    the size check and the malware scan: when the file is rejected by one
    of these, or is accepted in a category other than image, the run of
    [comprehensive_scan] is the same whatever [Image.open] would do. *)
Theorem image_opened_only_for_clean_images (env : Env) (path : string)
    (f : string -> outcome image) :
  (exists tv c m, returns (validate_file_type env path) (tv, c, m)
                  /\ (tv = false \/ is_image c = false))
  \/ (exists n, returns (validate_file_size env path MAX_FILE_SIZE) (false, n))
  \/ (exists d, returns (scan_for_malware env path) (false, d)) ->
  comprehensive_scan_run (with_image f env) path = comprehensive_scan_run env path.
Proof.
  intros Hskip. scan_cases env path.
  destruct (analyze_image_content_total (with_image f env) path) as (lc' & [cs' cd'] & Hc').
  pose proof (comprehensive_scan_try_eq (with_image f env) path
                _ _ _ _ _ _ _ _ _ _ _ _ _ _ _ Hh Ht Hs Hm Hc') as Hrun'.
  rewrite <- comprehensive_scan_run_try in Hrun'. cbv zeta in Hrun'.
  rewrite Hrun, Hrun'.
  destruct Hskip as [(tv' & c' & m' & H & Hor) | [(n' & H) | (d' & H)]].
  - apply (returns_inj _ _ _ _ Ht) in H. injection H as -> -> _.
    destruct Hor as [-> | Hi]; [reflexivity|].
    rewrite Hi. destruct tv, sv, mc; reflexivity.
  - apply (returns_inj _ _ _ _ Hs) in H. injection H as <- _.
    destruct tv; reflexivity.
  - apply (returns_inj _ _ _ _ Hm) in H. injection H as <- _.
    destruct tv, sv; reflexivity.
Qed.

Lemma image_opened_only_for_clean_images_witness :
  comprehensive_scan_run
    (with_image (fun _ => Raise (Exception "cannot identify image file"))
                (with_magic (fun _ => Ok "application/pdf") sample_env))
    "/srv/uploads/report.pdf"
  = comprehensive_scan_run (with_magic (fun _ => Ok "application/pdf") sample_env)
                           "/srv/uploads/report.pdf".
Proof.
  apply (image_opened_only_for_clean_images
           (with_magic (fun _ => Ok "application/pdf") sample_env)
           "/srv/uploads/report.pdf"
           (fun _ => Raise (Exception "cannot identify image file"))).
  left. exists true, (Some "document"), (Some "application/pdf").
  split; [reflexivity | right; reflexivity].
Defined.

(* ===================================================================== *)
(** ** How failures of the outside world are reported *)
(* ===================================================================== *)

(** X12. When the type is valid and reading the size raises, the report
    says that the file is too large: its single error is "File too large",
    its size is 0, and the malware scan and the content analysis did not
    run. *)
Theorem stat_failure_reads_as_too_large (env : Env) (path : string)
    (category mime : option string) (e : exc) :
  returns (validate_file_type env path) (true, category, mime) ->
  os_path_getsize env path = Raise e ->
  exists r,
    comprehensive_scan env path = Ok r
    /\ errors r = ["File too large"]
    /\ size_valid r = false /\ file_size r = 0
    /\ malware_scan r = not_scanned /\ content_analysis r = not_analyzed
    /\ overall_safe r = false.
Proof.
  intros Htype Hstat. scan_cases env path.
  apply (returns_inj _ _ _ _ Ht) in Htype. injection Htype as <- <- <-.
  unfold validate_file_size in Hs. rewrite Hstat in Hs. cbn in Hs.
  injection Hs as <- <- <-.
  unfold comprehensive_scan. rewrite Hrun. cbn [negb].
  eexists. repeat split.
Qed.

Lemma stat_failure_reads_as_too_large_witness :
  exists r,
    comprehensive_scan
      (with_getsize (fun _ => Raise (Exception "No such file or directory")) sample_env)
      "/srv/uploads/photo.png" = Ok r
    /\ errors r = ["File too large"]
    /\ size_valid r = false /\ file_size r = 0
    /\ malware_scan r = not_scanned /\ content_analysis r = not_analyzed
    /\ overall_safe r = false.
Proof.
  apply (stat_failure_reads_as_too_large
           (with_getsize (fun _ => Raise (Exception "No such file or directory")) sample_env)
           "/srv/uploads/photo.png" (Some "image") (Some "image/png")
           (Exception "No such file or directory"));
    reflexivity.
Defined.

(** X13. When the type and the size are valid and the scan itself fails,
    because the exchange with the daemon raises or because the answer has
    neither OK nor FOUND, the report says that malware was detected: its
    single error is "Malware detected: " followed by "Scan error: " and the
    message of the exception, or by "Scan failed". *)
Theorem scan_failure_reads_as_malware (env : Env) (path : string)
    (category mime : option string) (size : Z) (details : string) :
  returns (validate_file_type env path) (true, category, mime) ->
  returns (validate_file_size env path MAX_FILE_SIZE) (true, size) ->
  (exists e, daemon_answer env path = Raise e /\ details = "Scan error: " ++ str e)
  \/ (exists received,
        daemon_answer env path = Ok received
        /\ PyStr.contains "OK" received = false
        /\ PyStr.contains "FOUND" received = false
        /\ details = "Scan failed") ->
  exists r,
    comprehensive_scan env path = Ok r
    /\ errors r = ["Malware detected: " ++ details]
    /\ malware_scan r = {| clean := false; malware_details := details |}
    /\ content_analysis r = not_analyzed
    /\ overall_safe r = false.
Proof.
  intros Htype Hsize Hfail. scan_cases env path.
  apply (returns_inj _ _ _ _ Ht) in Htype. injection Htype as <- <- <-.
  apply (returns_inj _ _ _ _ Hs) in Hsize. injection Hsize as <- <-.
  assert (Hscan : returns (scan_for_malware env path) (false, details)).
  { destruct Hfail as [(e & Hans & ->) | (received & Hans & Hok & Hfound & ->)].
    - unfold daemon_answer in Hans. unfold returns, scan_for_malware.
      rewrite Hans. reflexivity.
    - rewrite (scan_for_malware_answered _ _ _ Hans). unfold parse_response.
      rewrite contains_OK_strip, contains_FOUND_strip, Hok, Hfound. reflexivity. }
  apply (returns_inj _ _ _ _ Hm) in Hscan. injection Hscan as <- <-.
  unfold comprehensive_scan. rewrite Hrun. cbn [negb].
  eexists. repeat split.
Qed.

Lemma scan_failure_reads_as_malware_witness :
  exists r,
    comprehensive_scan
      (with_clamd (fun _ _ _ => Raise (Exception "Connection refused")) sample_env)
      "/srv/uploads/photo.png" = Ok r
    /\ errors r = ["Malware detected: " ++ "Scan error: Connection refused"]
    /\ malware_scan r
       = {| clean := false; malware_details := "Scan error: Connection refused" |}
    /\ content_analysis r = not_analyzed
    /\ overall_safe r = false.
Proof.
  apply (scan_failure_reads_as_malware
           (with_clamd (fun _ _ _ => Raise (Exception "Connection refused")) sample_env)
           "/srv/uploads/photo.png" (Some "image") (Some "image/png") 1024
           "Scan error: Connection refused").
  - reflexivity.
  - reflexivity.
  - left. exists (Exception "Connection refused"). split; reflexivity.
Defined.

(* ===================================================================== *)
(** ** What acceptance means *)
(* ===================================================================== *)

(** The flag of type validation in terms of libmagic and the tables. *)
Lemma type_flag_cases (env : Env) (path : string) (l : list log_record)
    (tv : bool) (c m : option string) :
  validate_file_type env path = (l, Ok (tv, c, m)) ->
  (tv = true
   /\ exists mt category extensions,
        c = Some category /\ magic_from_file env path = Ok mt
        /\ In (category, extensions) ALLOWED_EXTENSIONS
        /\ str_in (extension path) extensions = true
        /\ _mime_matches_extension mt category = true)
  \/ (tv = false
      /\ forall mt category extensions,
           magic_from_file env path = Ok mt ->
           In (category, extensions) ALLOWED_EXTENSIONS ->
           str_in (extension path) extensions = true ->
           _mime_matches_extension mt category = false).
Proof.
  intros H. destruct (magic_from_file env path) as [mt|e] eqn:Hmagic.
  - pose proof (validate_file_type_sniffed _ _ _ Hmagic) as Hv.
    unfold result in Hv. rewrite H in Hv. cbn [snd] in Hv.
    destruct (allowed_category _ _ _) as [category|] eqn:Ea; injection Hv as -> -> ->.
    + left. split; [reflexivity|].
      destruct (allowed_category_some _ _ _ _ Ea) as (x & Hin & Hx & Hm).
      exists mt, category, x. repeat split; trivial.
    + right. split; [reflexivity|]. intros mt' category x Hmt Hin Hx.
      injection Hmt as <-.
      destruct (_mime_matches_extension mt category) eqn:Hm; [|reflexivity].
      assert (Huniq : forall c' x', In (c', x') ALLOWED_EXTENSIONS ->
                        str_in (extension path) x' = true -> c' = category)
        by (intros c' x' Hin' Hx'; exact (extension_category_unique _ _ _ _ _ Hin' Hin Hx' Hx)).
      rewrite (allowed_category_first _ _ _ _ _ Hin Hx Hm Huniq) in Ea. discriminate.
  - right. rewrite (validate_file_type_unsniffed _ _ _ Hmagic) in H.
    injection H as _ <- _ _. split; [reflexivity|]. intros mt category x Hmt. discriminate.
Qed.

Lemma size_flag_iff (env : Env) (path : string) (max_size : Z)
    (l : list log_record) (sv : bool) (n : Z) :
  validate_file_size env path max_size = (l, Ok (sv, n)) ->
  (sv = true <-> exists size, os_path_getsize env path = Ok size /\ size <= max_size).
Proof.
  unfold validate_file_size.
  destruct (os_path_getsize env path) as [size|e]; cbn; intros H.
  - injection H as _ <- _. split.
    + intros Hle. exists size. split; [reflexivity | lia].
    + intros (size' & Heq & Hle). injection Heq as <-. lia.
  - injection H as _ <- _. split; [discriminate | intros (size & Heq & _); discriminate].
Qed.

Lemma scan_flag_iff (env : Env) (path : string) (l : list log_record)
    (mc : bool) (d : string) :
  scan_for_malware env path = (l, Ok (mc, d)) ->
  (mc = true <-> exists received, daemon_answer env path = Ok received
                                  /\ PyStr.contains "OK" received = true).
Proof.
  intros H. destruct (daemon_answer env path) as [received|e] eqn:Hans.
  - rewrite (scan_for_malware_answered _ _ _ Hans) in H.
    unfold parse_response in H.
    rewrite contains_OK_strip, contains_FOUND_strip in H.
    destruct (PyStr.contains "OK" received) eqn:Hok.
    + cbn in H. injection H as _ <- _. split; [intros _; now exists received | reflexivity].
    + assert (mc = false) as ->.
      { destruct (PyStr.contains "FOUND" received).
        - destruct (list_index (PyStr.split ":" (PyStr.strip received)) 1);
            cbn -[PyStr.strip] in H; now injection H as _ <- _.
        - cbn in H. now injection H as _ <- _. }
      split; [discriminate | intros (received' & Heq & Hok'); congruence].
  - unfold daemon_answer in Hans. unfold scan_for_malware in H. rewrite Hans in H.
    cbn in H. injection H as _ <- _.
    split; [discriminate | intros (received & Heq & _); discriminate].
Qed.

Lemma image_flag_iff (env : Env) (path : string) (l : list log_record)
    (cs : bool) (cd : string) :
  analyze_image_content env path = (l, Ok (cs, cd)) ->
  (cs = true <-> exists img w h,
                   Image_open env path = Ok img /\ img_size img = (w, h)
                   /\ 10 <= w <= 10000 /\ 10 <= h <= 10000).
Proof.
  intros H. destruct (Image_open env path) as [img|e] eqn:Hopen.
  - pose proof (analyze_image_content_opened _ _ _ Hopen) as Hv.
    unfold result in Hv. rewrite H in Hv. cbn [snd] in Hv.
    destruct (img_size img) as [w h] eqn:Hsize.
    rewrite !Z.gtb_ltb in Hv.
    destruct (Z.ltb_spec w 10), (Z.ltb_spec h 10),
             (Z.ltb_spec 10000 w), (Z.ltb_spec 10000 h);
      cbn [orb] in Hv; injection Hv as -> ->;
      (split; [intros Hcs; try discriminate; exists img, w, h; repeat split; trivial; lia
              | intros (img' & w' & h' & Heq & Hwh & Hw & Hh);
                injection Heq as <-; rewrite Hsize in Hwh; injection Hwh as <- <-;
                try reflexivity; lia]).
  - unfold analyze_image_content in H. rewrite Hopen in H. cbn in H.
    injection H as _ <- _.
    split; [discriminate | intros (img & w & h & Heq & _); discriminate].
Qed.

Lemma is_image_some (category : string) :
  is_image (Some category) = true <-> category = "image".
Proof. apply String.eqb_eq. Qed.

(** X14. The report of every run has [overall_safe] true exactly when the
    outside world meets the acceptance conditions: libmagic names a type
    that starts with a prefix of a category listing the extension, the size
    can be read and is at most [MAX_FILE_SIZE], the daemon's answer
    contains OK, and, for an image, Pillow opens it with both sides between
    10 and 10000.  Nothing else of the world decides: not the hash, the
    image mode or the info keys. *)
Theorem safe_iff_accepted (env : Env) (path : string) :
  exists r,
    comprehensive_scan env path = Ok r
    /\ (overall_safe r = true <-> accepted env path).
Proof.
  scan_cases env path.
  pose proof (type_flag_cases _ _ _ _ _ _ Ht) as Htype.
  pose proof (size_flag_iff _ _ _ _ _ _ Hs) as Hsize.
  pose proof (scan_flag_iff _ _ _ _ _ Hm) as Hscan.
  pose proof (image_flag_iff _ _ _ _ _ Hc) as Himage.
  assert (Hacc : accepted env path <->
                 tv = true /\ sv = true /\ mc = true /\ (is_image c = true -> cs = true)).
  { unfold accepted. split.
    - intros (mt & category & x & size & received
              & Hmt & Hin & Hx & Hmatch & Hsz & Hle & Hans & Hok & Himg).
      destruct Htype as [(-> & mt' & category' & x' & -> & _ & Hin' & Hx' & _)
                        | (_ & Hno)].
      + assert (category' = category)
          by exact (extension_category_unique _ _ _ _ _ Hin' Hin Hx' Hx).
        subst category'.
        repeat split.
        * apply Hsize. eauto.
        * apply Hscan. eauto.
        * intros Hi. apply is_image_some in Hi. apply Himage. auto.
      + rewrite (Hno _ _ _ Hmt Hin Hx) in Hmatch. discriminate.
    - intros (Htv & Hsv & Hmc & Hcs).
      destruct Htype as [(_ & mt & category & x & -> & Hmt & Hin & Hx & Hmatch)
                        | (Hf & _)]; [|congruence].
      apply Hsize in Hsv as (size & Hsz & Hle).
      apply Hscan in Hmc as (received & Hans & Hok).
      exists mt, category, x, size, received. repeat split; trivial.
      intros Hcat. apply Himage, Hcs, is_image_some, Hcat. }
  unfold comprehensive_scan. rewrite Hrun.
  destruct tv, sv, mc, (is_image c) eqn:Ei, cs; cbn [negb];
    eexists; (split; [reflexivity|]); rewrite Hacc; cbn;
    intuition congruence.
Qed.

(* ===================================================================== *)
(** ** The quick validation and the pipeline *)
(* ===================================================================== *)

(** X15. The quick validation of [validate_file] never raises and agrees
    with the pipeline on the type: same flag, category and MIME type, and
    [valid] is true exactly when the report of the pipeline has a valid type
    and a valid size.  The two differ on a file of invalid type: the quick
    validation still reads its size, where the report keeps size 0 and an
    invalid size. *)
Theorem quick_validation_agrees (env : Env) (path : string) :
  exists v r,
    returns (quick_validation env path) v
    /\ comprehensive_scan env path = Ok r
    /\ v_file_type_valid v = file_type_valid r
    /\ v_file_category v = file_category r
    /\ v_mime_type v = mime_type r
    /\ (valid v = true <-> file_type_valid r = true /\ size_valid r = true)
    /\ returns (validate_file_size env path MAX_FILE_SIZE) (v_size_valid v, v_file_size v)
    /\ (file_type_valid r = true ->
        v_size_valid v = size_valid r /\ v_file_size v = file_size r)
    /\ (file_type_valid r = false -> size_valid r = false /\ file_size r = 0).
Proof.
  scan_cases env path.
  unfold comprehensive_scan, returns, quick_validation. rewrite Hrun, Ht, Hs.
  cbn -[MAX_FILE_SIZE].
  destruct tv, sv, mc, (is_image c), cs; cbn [negb];
    do 2 eexists; (split; [reflexivity|]); (split; [reflexivity|]); cbn;
    repeat split; intros; try reflexivity; try discriminate;
    intuition congruence.
Qed.

Example sample_is_accepted : accepted sample_env "/srv/uploads/photo.PNG".
Proof.
  exists "image/png", "image", ["jpg"; "jpeg"; "png"; "gif"; "bmp"; "webp"],
         1024, ("stream: OK" ++ LF).
  repeat split; try reflexivity; try (now left); try discriminate.
  intros _.
  exists {| img_size := (100, 100); img_mode := "RGB"; img_info := [] |}, 100, 100.
  repeat split; try reflexivity; lia.
Qed.

(* ===================================================================== *)
(** ** The table of MIME prefixes *)
(* ===================================================================== *)

(** X16. [_mime_matches_extension] answers true exactly when the category
    is one of the three in its table and the MIME type begins with one of
    the prefixes the table gives for it; for any other category it answers
    false, whatever the MIME type. *)
Theorem mime_match_iff_prefix (mt category : string) :
  _mime_matches_extension mt category = true
  <-> exists prefixes prefix rest,
        In (category, prefixes) mime_categories
        /\ In prefix prefixes
        /\ mt = prefix ++ rest.
Proof.
  unfold _mime_matches_extension, mime_categories. split.
  - intros H. apply existsb_exists in H as (prefix & Hin & Hstart).
    apply startswith_inv in Hstart as (rest & ->).
    cbn [dict_get] in Hin.
    destruct (String.eqb_spec category "image") as [->|_].
    { exists ["image/"], prefix, rest. repeat split; trivial. now left. }
    destruct (String.eqb_spec category "video") as [->|_].
    { exists ["video/"], prefix, rest. repeat split; trivial. right; now left. }
    destruct (String.eqb_spec category "document") as [->|_]; [|contradiction].
    exists ["application/pdf"; "application/msword"; "text/"; "application/vnd."],
           prefix, rest.
    repeat split; trivial. right; right; now left.
  - intros (prefixes & prefix & rest & Hcat & Hin & ->).
    apply existsb_exists. exists prefix. split; [|apply startswith_app].
    cbn [In] in Hcat.
    destruct Hcat as [H|[H|[H|[]]]]; injection H as <- <-; exact Hin.
Qed.
